(** * Gmail auto-responder: a shallow embedding of the ingestion pipeline

    The development follows the Python sources module by module:
    - [PyStr]         the [str] methods the sources call, on code points
                      ([strip], [splitlines], [join], [startswith]);
    - [Exc]           exceptions as values ([raise], [try]/[except]);
    - [Regex]         the fragment of [re] used by [strip_quotes];
    - [Lib]           the library calls, as an interface, with a model of
                      CPython's decoders to run examples;
    - [GmailService]  [_b64decode_url], [strip_quotes], [build_mime];
    - [Eff]           calls that change the mailbox, the database or
                      standard output, and may raise;
    - [DraftRepo]     the [drafts] table, [save_draft], [update_draft_status];
    - [Process]       the state of the running process, and [print] on a
                      standard output with a given encoding;
    - [LLMService]    [LLMService.draft_reply];
    - [Scheduler]     [SchedulerService.poll_inbox] and the [GmailService]
                      methods it calls;
    - [Examples]      messages, a table and a mailbox to run the code on;
    - [Repo], [Store] the queries and the removal of [DraftRepository], and
                      its methods as called with an [int] of any size;
    - [Gmail], [Main] the methods on drafts and the three actions of the
                      review page;
    - [Page]          the cells of the drafts table.
    The properties follow the definitions. *)

From Stdlib Require Import NArith ZArith List String Ascii Bool Lia.
From Stdlib Require Import Sorted Permutation.
From stdpp Require Import gmap.
From Equations Require Import Equations.
Import ListNotations.

(* ===================================================================== *)
(** ** Python strings *)
(* ===================================================================== *)

Module PyStr.

(** A Python [str] is a sequence of Unicode code points. *)
Definition char := N.
Definition str := list N.

(** Literals: the code points of an ASCII string. *)
Definition u (s : string) : str :=
  map N_of_ascii (list_ascii_of_string s).

Definition LF : char := 10%N.
Definition CR : char := 13%N.
Definition nl : str := [LF].

Definition str_eqb (a b : str) : bool := bool_decide (a = b).

(** Truthiness of a string: non-empty. *)
Definition truthy (s : str) : bool :=
  match s with [] => false | _ :: _ => true end.

(** Truthiness of an optional string: [None] and the empty string are
    false. *)
Definition truthy_opt (o : option str) : bool :=
  match o with Some s => truthy s | None => false end.

(** [a or b] on strings. *)
Definition or_else (a b : str) : str := if truthy a then a else b.

Definition in_range (lo hi c : N) : bool := ((lo <=? c) && (c <=? hi))%N.

(** [str.isspace] on one code point (the table behind
    [Py_UNICODE_ISSPACE], also used by [\s] of [re] on [str] patterns). *)
Definition isspace (c : char) : bool :=
  in_range 0x09 0x0D c || in_range 0x1C 0x1F c || (c =? 0x20)%N
  || (c =? 0x85)%N || (c =? 0xA0)%N || (c =? 0x1680)%N
  || in_range 0x2000 0x200A c || (c =? 0x2028)%N || (c =? 0x2029)%N
  || (c =? 0x202F)%N || (c =? 0x205F)%N || (c =? 0x3000)%N.

(** Line boundaries of [str.splitlines] other than the pair CR LF. *)
Definition is_linebreak (c : char) : bool :=
  in_range 0x0A 0x0D c || in_range 0x1C 0x1E c || (c =? 0x85)%N
  || (c =? 0x2028)%N || (c =? 0x2029)%N.

(** [s.lstrip()] *)
Fixpoint lstrip (s : str) : str :=
  match s with
  | [] => []
  | c :: t => if isspace c then lstrip t else s
  end.

(** [s.rstrip()] *)
Fixpoint rstrip (s : str) : str :=
  match s with
  | [] => []
  | c :: t =>
      match rstrip t with
      | [] => if isspace c then [] else [c]
      | t' => c :: t'
      end
  end.

(** [s.strip()] *)
Definition strip (s : str) : str := rstrip (lstrip s).

(** [s.splitlines()]: [cur] is the line being read, last character first. *)
Fixpoint splitlines_from (cur : str) (s : str) : list str :=
  match s with
  | [] => match cur with [] => [] | _ => [rev cur] end
  | c :: t =>
      if (c =? CR)%N then
        match t with
        | c' :: t' =>
            if (c' =? LF)%N then rev cur :: splitlines_from [] t'
            else rev cur :: splitlines_from [] t
        | [] => rev cur :: splitlines_from [] t
        end
      else if is_linebreak c then rev cur :: splitlines_from [] t
      else splitlines_from (c :: cur) t
  end.

Definition splitlines (s : str) : list str := splitlines_from [] s.

(** [sep.join(items)] *)
Fixpoint join (sep : str) (items : list str) : str :=
  match items with
  | [] => []
  | [x] => x
  | x :: rest => x ++ sep ++ join sep rest
  end.

(** [s.startswith(p)] *)
Fixpoint startswith (s p : str) : bool :=
  match p, s with
  | [], _ => true
  | _ :: _, [] => false
  | a :: p', b :: s' => (a =? b)%N && startswith s' p'
  end.

(** [c * n] for a one-character string [c]. *)
Definition times (c : char) (n : nat) : str := repeat c n.

(** A lowering function for the examples: exact on ASCII and on the
    Latin-1 letters, the identity elsewhere.  The theorems below are stated
    for an arbitrary [lower] and instantiated with this one. *)
Definition lower_char (c : char) : char :=
  if in_range 0x41 0x5A c then (c + 32)%N
  else if in_range 0xC0 0xDE c && negb (c =? 0xD7)%N then (c + 32)%N
  else c.
Definition ascii_lower (s : str) : str := map lower_char s.

End PyStr.
Export PyStr.

(* ===================================================================== *)
(** ** Exceptions *)
(* ===================================================================== *)

Module Exc.

(** The exception classes that occur; all derive from [Exception]. *)
Inductive exn :=
| ValueError (msg : str)
| BinasciiError
| HttpError (msg : str)
| IndexError
| AttributeError
| IntegrityError
| UnicodeEncodeError
| OverflowError
| OtherError (msg : str).

Inductive result (A : Type) :=
| Ok (a : A)
| Raise (e : exn).
Arguments Ok {A} a.
Arguments Raise {A} e.

Definition bind {A B} (m : result A) (k : A -> result B) : result B :=
  match m with
  | Ok a => k a
  | Raise e => Raise e
  end.

(** [try: m  except Exception as e: h e] *)
Definition try_except {A} (m : result A) (h : exn -> result A) : result A :=
  match m with
  | Ok a => Ok a
  | Raise e => h e
  end.

End Exc.
Export Exc.

Notation "'let!' x ':=' m 'in' k" := (Exc.bind m (fun x => k))
  (at level 10, x pattern, m at level 100, k at level 200).

(* ===================================================================== *)
(** ** The fragment of [re] used by the sources *)
(* ===================================================================== *)

Module Regex.

Inductive re :=
| Void                         (* matches nothing *)
| Eps                          (* the empty string; also [^] at position 0 *)
| Cls (p : char -> bool)       (* one character of a class *)
| Seq (r1 r2 : re)
| Alt (r1 r2 : re)
| Star (r : re).

Definition Chr (c : char) : re := Cls (N.eqb c).
Definition Plus (r : re) : re := Seq r (Star r).

(** A literal string. *)
Fixpoint Lit (s : str) : re :=
  match s with
  | [] => Eps
  | c :: t => Seq (Chr c) (Lit t)
  end.

(** [\s] and [.] (without DOTALL: anything but a line feed). *)
Definition Space : re := Cls isspace.
Definition Dot : re := Cls (fun c => negb (c =? LF)%N).

(** The language of a pattern. *)
Inductive lang : re -> str -> Prop :=
| L_eps : lang Eps []
| L_cls p c : p c = true -> lang (Cls p) [c]
| L_seq r1 r2 s1 s2 : lang r1 s1 -> lang r2 s2 -> lang (Seq r1 r2) (s1 ++ s2)
| L_alt_l r1 r2 s : lang r1 s -> lang (Alt r1 r2) s
| L_alt_r r1 r2 s : lang r2 s -> lang (Alt r1 r2) s
| L_star_nil r : lang (Star r) []
| L_star_cons r s1 s2 : lang r s1 -> lang (Star r) s2 -> lang (Star r) (s1 ++ s2).

Fixpoint nullable (r : re) : bool :=
  match r with
  | Void => false
  | Eps => true
  | Cls _ => false
  | Seq r1 r2 => nullable r1 && nullable r2
  | Alt r1 r2 => nullable r1 || nullable r2
  | Star _ => true
  end.

(** Constructors that drop [Void] and [Eps] so that derivatives stay small. *)
Definition mk_seq (r1 r2 : re) : re :=
  match r1, r2 with
  | Void, _ => Void
  | _, Void => Void
  | Eps, _ => r2
  | _, _ => Seq r1 r2
  end.

Definition mk_alt (r1 r2 : re) : re :=
  match r1, r2 with
  | Void, _ => r2
  | _, Void => r1
  | _, _ => Alt r1 r2
  end.

(** Brzozowski derivative: what may follow after reading [c]. *)
Fixpoint deriv (c : char) (r : re) : re :=
  match r with
  | Void => Void
  | Eps => Void
  | Cls p => if p c then Eps else Void
  | Seq r1 r2 =>
      mk_alt (mk_seq (deriv c r1) r2) (if nullable r1 then deriv c r2 else Void)
  | Alt r1 r2 => mk_alt (deriv c r1) (deriv c r2)
  | Star r1 => mk_seq (deriv c r1) (Star r1)
  end.

(** [re.match(r, s)] as a truth value: some prefix of [s] is in the
    language of [r] (the match is anchored at position 0 only). *)
Fixpoint re_match (r : re) (s : str) : bool :=
  nullable r ||
  match s with
  | [] => false
  | c :: t => re_match (deriv c r) t
  end.

End Regex.
Export Regex.

(* ===================================================================== *)
(** ** Library functions the sources call *)
(* ===================================================================== *)

Module Lib.

Definition bytes := list N.

(** A message object of [email.mime.text]: the text it was built from and
    its headers, in the order in which they were added. *)
Record MIMEText := {
  mt_text : str;
  mt_headers : list (str * str)
}.

(** The code points that UTF-8 does not encode. *)
Definition is_surrogate (c : char) : bool := in_range 0xD800 0xDFFF c.

Definition QUOTE : char := 0x22%N.

(** [MIMEText(text, _charset="utf-8")]: the constructor encodes the text,
    which raises [UnicodeEncodeError] when it holds a surrogate, and sets
    three headers. *)
Definition MIMEText_utf8 (text : str) : result MIMEText :=
  if existsb is_surrogate text then Raise UnicodeEncodeError
  else
    Ok {| mt_text := text;
          mt_headers :=
            [(u "Content-Type",
              u "text/plain; charset=" ++ [QUOTE] ++ u "utf-8" ++ [QUOTE]);
             (u "MIME-Version", u "1.0");
             (u "Content-Transfer-Encoding", u "base64")] |}.

(** [msg[name] = value]: the header is added after those present. *)
Definition set_header (name value : str) (msg : MIMEText) : MIMEText :=
  {| mt_text := mt_text msg; mt_headers := mt_headers msg ++ [(name, value)] |}.

(** Functions of the Python library and of third-party packages.  The
    theorems hold for every implementation of this interface. *)
Class PyLib := {
  (** [str.lower] *)
  lower : str -> str;
  (** [base64.urlsafe_b64decode] applied to a [str] *)
  urlsafe_b64decode : str -> result bytes;
  (** [bytes.decode("utf-8", "ignore")] *)
  decode_utf8_ignore : bytes -> str;
  (** [html.unescape(BeautifulSoup(body, "html.parser").get_text(" ", strip=True))] *)
  html_text : str -> str;
  (** [base64.urlsafe_b64encode(msg.as_bytes()).decode("utf-8")] *)
  mime_raw : MIMEText -> result str
}.

(** *** A model of CPython's decoders, used to run the examples *)

(** [binascii.a2b_base64] table, after the urlsafe translation of
    [-] to [+] and [_] to [/]. *)
Definition b64_value (c : N) : option N :=
  if in_range 0x41 0x5A c then Some (c - 0x41)%N
  else if in_range 0x61 0x7A c then Some (c - 0x61 + 26)%N
  else if in_range 0x30 0x39 c then Some (c - 0x30 + 52)%N
  else if (c =? 0x2B)%N || (c =? 0x2D)%N then Some 62%N
  else if (c =? 0x2F)%N || (c =? 0x5F)%N then Some 63%N
  else None.

Definition PAD : N := 0x3D%N.

(** The loop of [binascii.a2b_base64] in its lenient mode: characters
    outside the alphabet are skipped, a complete pad sequence ends the
    parse, and a dangling quad raises [binascii.Error]. *)
Fixpoint a2b_base64 (s : bytes) (quad_pos : nat) (leftchar : N) (pads : nat)
    (out : bytes) : result bytes :=
  match s with
  | [] => if Nat.eqb quad_pos 0 then Ok out else Raise BinasciiError
  | c :: t =>
      if (c =? PAD)%N then
        if Nat.leb 2 quad_pos then
          if Nat.leb 4 (quad_pos + S pads) then Ok out
          else a2b_base64 t quad_pos leftchar (S pads) out
        else a2b_base64 t quad_pos leftchar pads out
      else
        match b64_value c with
        | None => a2b_base64 t quad_pos leftchar pads out
        | Some v =>
            match quad_pos with
            | 0 => a2b_base64 t 1 v 0 out
            | 1 => a2b_base64 t 2 (N.land v 0x0F) 0
                     (out ++ [N.lor (N.shiftl leftchar 2) (N.shiftr v 4)])
            | 2 => a2b_base64 t 3 (N.land v 0x03) 0
                     (out ++ [N.lor (N.shiftl leftchar 4) (N.shiftr v 2)])
            | _ => a2b_base64 t 0 0 0
                     (out ++ [N.lor (N.shiftl leftchar 6) v])
            end
        end
  end.

(** [base64.urlsafe_b64decode(s)] for [s : str]: the argument is first
    encoded as ASCII, which raises [ValueError] on other code points. *)
Definition cpython_urlsafe_b64decode (s : str) : result bytes :=
  if forallb (fun c => (c <? 128)%N) s then a2b_base64 s 0 0 0 []
  else Raise (ValueError (u "string argument should contain only ASCII characters")).

Definition is_cont (b : N) : bool := in_range 0x80 0xBF b.
Definition low6 (b : N) : N := N.land b 0x3F.

(** [bytes.decode("utf-8", "ignore")]: well-formed sequences are decoded,
    every maximal ill-formed run of bytes is dropped. *)
Fixpoint cpython_decode_utf8_ignore (bs : bytes) : str :=
  match bs with
  | [] => []
  | b0 :: t =>
      if (b0 <? 0x80)%N then b0 :: cpython_decode_utf8_ignore t
      else if in_range 0xC2 0xDF b0 then
        match t with
        | b1 :: t1 =>
            if is_cont b1
            then N.lor (N.shiftl (N.land b0 0x1F) 6) (low6 b1)
                   :: cpython_decode_utf8_ignore t1
            else cpython_decode_utf8_ignore t
        | [] => []
        end
      else if in_range 0xE0 0xEF b0 then
        match t with
        | b1 :: t1 =>
            if in_range (if (b0 =? 0xE0)%N then 0xA0 else 0x80)
                        (if (b0 =? 0xED)%N then 0x9F else 0xBF) b1
            then
              match t1 with
              | b2 :: t2 =>
                  if is_cont b2
                  then N.lor (N.shiftl (N.land b0 0x0F) 12)
                         (N.lor (N.shiftl (low6 b1) 6) (low6 b2))
                         :: cpython_decode_utf8_ignore t2
                  else cpython_decode_utf8_ignore t1
              | [] => []
              end
            else cpython_decode_utf8_ignore t
        | [] => []
        end
      else if in_range 0xF0 0xF4 b0 then
        match t with
        | b1 :: t1 =>
            if in_range (if (b0 =? 0xF0)%N then 0x90 else 0x80)
                        (if (b0 =? 0xF4)%N then 0x8F else 0xBF) b1
            then
              match t1 with
              | b2 :: t2 =>
                  if is_cont b2 then
                    match t2 with
                    | b3 :: t3 =>
                        if is_cont b3
                        then N.lor (N.shiftl (N.land b0 0x07) 18)
                               (N.lor (N.shiftl (low6 b1) 12)
                                  (N.lor (N.shiftl (low6 b2) 6) (low6 b3)))
                               :: cpython_decode_utf8_ignore t3
                        else cpython_decode_utf8_ignore t2
                    | [] => []
                    end
                  else cpython_decode_utf8_ignore t1
              | [] => []
              end
            else cpython_decode_utf8_ignore t
        | [] => []
        end
      else cpython_decode_utf8_ignore t
  end.

(** Stand-ins for the two remaining library calls, enough to run the
    examples: the text of markup-free input is the input stripped, and a
    message is rendered one header per line before its text, without the
    folding and transfer encodings of the [email] package. *)
Definition plain_html_text (s : str) : str := strip s.

Definition render_header (h : str * str) : str :=
  fst h ++ u ": " ++ snd h ++ nl.

Definition plain_mime_raw (m : MIMEText) : result str :=
  Ok (concat (map render_header (mt_headers m)) ++ nl ++ mt_text m).

Definition cpython : PyLib := {|
  lower := ascii_lower;
  urlsafe_b64decode := cpython_urlsafe_b64decode;
  decode_utf8_ignore := cpython_decode_utf8_ignore;
  html_text := plain_html_text;
  mime_raw := plain_mime_raw
|}.

End Lib.
Export Lib.

(* ===================================================================== *)
(** ** app/gmail_service.py *)
(* ===================================================================== *)

Module GmailService.

(** One entry of [payload["headers"]]. *)
Record Header := { h_name : str; h_value : str }.

(** A node of the body tree.  Absent keys are read with [.get] and a
    default, so a field holds the default when the key is absent:
    [mimeType] and [data] the empty string, [parts] the empty list. *)
Unset Elimination Schemes.
Inductive Part := MkPart {
  mimeType : str;
  data : str;
  parts : list Part
}.
Set Elimination Schemes.

(** The fields of a Gmail message that the sources read:
    [message["payload"]["parts"]], [message["payload"]["headers"]],
    [message["snippet"]] and [message["threadId"]].  The type and the body
    of the payload itself are not read. *)
Record Message := {
  payload_parts : list Part;
  payload_headers : list Header;
  snippet : str;
  threadId : option str
}.

(** The three tests on [mtype] in [strip_quotes]. *)
Definition is_multipart (p : Part) : bool := startswith (mimeType p) (u "multipart/").
Definition is_plain (p : Part) : bool := str_eqb (mimeType p) (u "text/plain").
Definition is_html (p : Part) : bool := str_eqb (mimeType p) (u "text/html").

Fixpoint part_size (p : Part) : nat :=
  S (list_sum (map part_size (parts p))).
Definition forest_size (ps : list Part) : nat :=
  list_sum (map part_size ps).

(** The leaves of the body tree in document order: a node whose type
    starts with [multipart/] stands for its children, any other node is a
    leaf. *)
Fixpoint leaves (p : Part) : list Part :=
  if is_multipart p then flat_map leaves (parts p) else [p].
Definition forest_leaves (ps : list Part) : list Part := flat_map leaves ps.

(** [parts.pop()]: the last element and the list without it. *)
Definition pop {A} (l : list A) : option (A * list A) :=
  match rev l with
  | [] => None
  | x :: r => Some (x, rev r)
  end.

(** A value together with the equation that it is the value. *)
Definition inspect {A} (x : A) : { y : A | x = y } := exist _ x eq_refl.

Section WithLib.
Context {L : PyLib}.

(** [data += "=" * (-len(data) % 4)] *)
Definition pad4 (data : str) : str :=
  data ++ times PAD (Z.to_nat ((- Z.of_nat (length data)) mod 4)).

(** [_b64decode_url] *)
Definition _b64decode_url (data : str) : result str :=
  if negb (truthy data) then Ok []
  else
    let data := pad4 data in
    try_except
      (let! raw := urlsafe_b64decode data in Ok (decode_utf8_ignore raw))
      (fun _ => Ok []).

(** The text that a node adds to its accumulator. *)
Definition decoded (p : Part) : str :=
  match _b64decode_url (data p) with
  | Ok s => s
  | Raise _ => []
  end.

(** The texts that a sequence of visited nodes adds to the accumulator
    fed by the nodes that [keep] selects. *)
Definition gathered (keep : Part -> bool) (visited : list Part) : str :=
  flat_map decoded (List.filter keep visited).

(** The [while parts:] loop of [strip_quotes]: the work list [todo] with
    the two accumulators. *)
Equations? walk (todo : list Part) (text_part html_part : str)
    : result (str * str) by wf (forest_size todo) lt :=
  walk todo text_part html_part with inspect (pop todo) := {
    | exist _ None _ => Ok (text_part, html_part);
    | exist _ (Some (p, todo')) Hpop =>
        if is_multipart p then
          walk (todo' ++ parts p) text_part html_part
        else if is_plain p then
          let! s := _b64decode_url (data p) in
          walk todo' (text_part ++ s) html_part
        else if is_html p then
          let! s := _b64decode_url (data p) in
          walk todo' text_part (html_part ++ s)
        else
          walk todo' text_part html_part
  }.
Proof.
  all: unfold pop in Hpop; destruct (rev todo) as [|x r] eqn:Hr; [discriminate|];
    injection Hpop as -> <-;
    apply (f_equal (@rev Part)) in Hr; rewrite rev_involutive in Hr; subst todo;
    unfold forest_size; simpl; rewrite ?map_app, ?list_sum_app; simpl;
    destruct p; simpl; unfold forest_size; lia.
Defined.

(** The pattern [r"^>+|\s*On .*wrote:"]. *)
Definition QUOTE_RE : re :=
  Alt (Seq Eps (Plus (Chr 0x3E%N)))
      (Seq (Star Space)
         (Seq (Lit (u "On ")) (Seq (Star Dot) (Lit (u "wrote:"))))).

(** What the pattern stands for: a line that starts with [>], or a line
    made of white space, [On ], anything, [wrote:], and a remainder. *)
Definition quote_marker (line : str) : Prop :=
  (exists t, line = 0x3E%N :: t) \/
  (exists ws mid rest,
     forallb isspace ws = true /\
     forallb (fun c => negb (c =? LF)%N) mid = true /\
     line = ws ++ u "On " ++ mid ++ u "wrote:" ++ rest).

(** The lines before the first line that matches the pattern. *)
Fixpoint before_quote (lines : list str) : list str :=
  match lines with
  | [] => []
  | line :: rest =>
      if re_match QUOTE_RE line then [] else line :: before_quote rest
  end.

(** The [for line in body.splitlines():] loop with its [break]. *)
Fixpoint scan_lines (lines : list str) (cleaned : list str) : list str :=
  match lines with
  | [] => cleaned
  | line :: rest =>
      if re_match QUOTE_RE line then cleaned
      else scan_lines rest (cleaned ++ [rstrip line])
  end.

(** The body chosen from the accumulators and the snippet. *)
Definition select_body (text_part html_part snippet : str) : str :=
  let body := or_else (or_else text_part html_part) snippet in
  if truthy html_part && negb (truthy text_part) then html_text body
  else body.

(** The last lines of [strip_quotes], from [cleaned = []] to [return]. *)
Definition clean_body (body : str) : str :=
  let cleaned := scan_lines (splitlines body) [] in
  or_else (strip (join nl cleaned)) (strip body).

(** [strip_quotes] *)
Definition strip_quotes (message : Message) : result str :=
  let! acc := walk (payload_parts message) [] [] in
  Ok (clean_body (select_body (fst acc) (snd acc) (snippet message))).

(** [{h["name"].lower(): h["value"] for h in headers}] *)
Definition header_dict (headers : list Header) : gmap (list N) str :=
  foldl (fun d h => <[lower (h_name h) := h_value h]> d) ∅ headers.

(** What the dictionary holds for a key: the value of the last header
    whose lowered name is the key. *)
Definition header_value (key : str) (headers : list Header) : option str :=
  option_map h_value
    (List.find (fun h => str_eqb (lower (h_name h)) key) (rev headers)).

Definition NO_FROM : str :=
  u "Original message lacks 'From' header " ++ [0x2013%N] ++ u " cannot reply".

(** The error raised for an original message that cannot be answered;
    the specification calls it [InvalidOriginal]. *)
Definition InvalidOriginal : exn := ValueError NO_FROM.

(** The composed subject in the words of the specification: the original
    subject, prefixed with [Re: ] unless it starts with [re:] in any case;
    [Re: your email] when there is no subject. *)
Definition spec_subject (original_subject : option str) : str :=
  match original_subject with
  | None => u "Re: your email"
  | Some s => if startswith (lower s) (u "re:") then s else u "Re: " ++ s
  end.

(** [build_mime] up to the construction of [msg]. *)
Definition reply_message (reply_text : str) (original : Message)
    (from_addr : str) : result MIMEText :=
  let hdrs := header_dict (payload_headers original) in
  let to := hdrs !! u "from" in
  let subj := strip (default [] (hdrs !! u "subject")) in
  let mid := hdrs !! u "message-id" in
  if negb (truthy_opt to) then Raise (ValueError NO_FROM)
  else
    let subj :=
      if negb (startswith (lower subj) (u "re:"))
      then u "Re: " ++ or_else subj (u "your email")
      else subj in
    let! msg := MIMEText_utf8 reply_text in
    let msg := set_header (u "To") (default [] to) msg in
    let msg := set_header (u "From") from_addr msg in
    let msg := set_header (u "Subject") subj msg in
    Ok (if truthy_opt mid
        then set_header (u "References") (default [] mid)
               (set_header (u "In-Reply-To") (default [] mid) msg)
        else msg).

(** [build_mime] *)
Definition build_mime (reply_text : str) (original : Message)
    (from_addr : str) : result str :=
  let! msg := reply_message reply_text original from_addr in
  mime_raw msg.

(** [msg[name]]: the value of the first header of that name, if any. *)
Definition msg_header (name : str) (m : MIMEText) : option str :=
  option_map snd (List.find (fun h => str_eqb (fst h) name) (mt_headers m)).

(** The subject of the reply that [build_mime] composes, if it composes
    one. *)
Definition composed_subject (original : Message) : option str :=
  match reply_message [] original [] with
  | Ok msg => msg_header (u "Subject") msg
  | Raise _ => None
  end.

End WithLib.

End GmailService.
Export GmailService.

(* ===================================================================== *)
(** ** Calls that reach the outside world *)
(* ===================================================================== *)

Module Eff.

(** A computation over a state [S] that may raise: the state reached is
    kept when an exception is raised, nothing is rolled back. *)
Definition eff (S A : Type) : Type := S -> result A * S.

Definition eret {S A} (a : A) : eff S A := fun s => (Ok a, s).

Definition eraise {S A} (e : exn) : eff S A := fun s => (Raise e, s).

Definition ebind {S A B} (m : eff S A) (k : A -> eff S B) : eff S B :=
  fun s =>
    match m s with
    | (Ok a, s') => k a s'
    | (Raise e, s') => (Raise e, s')
    end.

(** A call that cannot change the state. *)
Definition lift {S A} (r : result A) : eff S A := fun s => (r, s).

(** [try: m  except Exception as e: h e] *)
Definition etry {S A} (m : eff S A) (h : exn -> eff S A) : eff S A :=
  fun s =>
    match m s with
    | (Ok a, s') => (Ok a, s')
    | (Raise e, s') => h e s'
    end.

End Eff.
Export Eff.

Notation "'do!' x ':=' m 'in' k" := (Eff.ebind m (fun x => k))
  (at level 10, x pattern, m at level 100, k at level 200).

(* ===================================================================== *)
(** ** app/draft_repo.py *)
(* ===================================================================== *)

Module DraftRepo.

(** A row of the [drafts] table. *)
Record Draft := {
  row_id : Z;
  message_id : str;
  draft_id : str;
  reply_text : str;
  status : str;
  created_at : Z;
  updated_at : Z
}.

(** The table in insertion order, and the largest row id handed out so
    far (the AUTOINCREMENT counter). *)
Record DB := {
  rows : list Draft;
  autoinc : Z
}.

Definition empty_db : DB := {| rows := []; autoinc := 0 |}.

Definition PENDING : str := u "pending".
Definition SENT_NO_EDIT : str := u "sent_no_edit".
Definition SENT_WITH_EDIT : str := u "sent_with_edit".
Definition REJECTED : str := u "rejected".

Definition is_terminal (s : str) : bool :=
  str_eqb s SENT_NO_EDIT || str_eqb s SENT_WITH_EDIT || str_eqb s REJECTED.

(** [save_draft]: the two timestamps are the two [datetime.now()] of the
    INSERT; a [None] in a NOT NULL column is refused by the table, which
    stays as it was.  The connection of a refused INSERT is left open by
    the source and keeps the write lock of the database file until the
    interpreter collects it; the table does not record that lock, and the
    properties below that run through several writes are stated for runs
    in which no INSERT is refused. *)
Definition save_draft (db : DB) (now1 now2 : Z)
    (message_id draft_id : option str) (reply_text status : str)
    : result Z * DB :=
  match message_id, draft_id with
  | Some mid, Some did =>
      let last_id := (autoinc db + 1)%Z in
      (Ok last_id,
       {| rows := rows db ++
            [{| row_id := last_id; message_id := mid; draft_id := did;
                reply_text := reply_text; status := status;
                created_at := now1; updated_at := now2 |}];
          autoinc := last_id |})
  | _, _ => (Raise IntegrityError, db)
  end.

(** [SET status = ?, reply_text = ?, updated_at = ?] *)
Definition set_status_text (status text : str) (now : Z) (r : Draft) : Draft :=
  {| row_id := row_id r; message_id := message_id r; draft_id := draft_id r;
     reply_text := text; status := status;
     created_at := created_at r; updated_at := now |}.

(** [SET status = ?, updated_at = ?] *)
Definition set_status (status : str) (now : Z) (r : Draft) : Draft :=
  {| row_id := row_id r; message_id := message_id r; draft_id := draft_id r;
     reply_text := reply_text r; status := status;
     created_at := created_at r; updated_at := now |}.

(** [UPDATE drafts SET ... WHERE id = ?]: the new table and the number
    of rows matched ([cursor.rowcount]). *)
Definition update_where_id (f : Draft -> Draft) (db_id : Z) (db : DB) : DB * nat :=
  ({| rows := map (fun r => if (row_id r =? db_id)%Z then f r else r) (rows db);
      autoinc := autoinc db |},
   length (List.filter (fun r => (row_id r =? db_id)%Z) (rows db))).

(** [update_draft_status], for an id that [sqlite3] can bind; the binding
    of the id is in [Store] below. *)
Definition update_draft_status (db : DB) (now : Z) (db_id : Z) (status : str)
    (updated_text : option str) : bool * DB :=
  let '(db', rowcount) :=
    if truthy_opt updated_text
    then update_where_id (set_status_text status (default [] updated_text) now) db_id db
    else update_where_id (set_status status now) db_id db in
  (Nat.ltb 0 rowcount, db').

(** [get_draft], for an id that [sqlite3] can bind. *)
Definition get_draft (db : DB) (db_id : Z) : option Draft :=
  List.find (fun r => (row_id r =? db_id)%Z) (rows db).

End DraftRepo.
Export DraftRepo.

(* ===================================================================== *)
(** ** The running process *)
(* ===================================================================== *)

Module Process.

(** Lines written to standard output.  [ListUnreadCut] is the start of
    the line of [list_unread], which is printed as two arguments: the first
    argument and the separator are written before the second is encoded. *)
Inductive line :=
| PollingInbox (now : Z)
| NoUnread
| FoundUnread (n : nat)
| ProcessedLine (msg_id draft_id : option str)
| ErrorProcessing (msg_id : option str) (e : exn)
| ErrorInJob (e : exn)
| ListUnreadError (e : exn)
| ListUnreadCut
| OpenAIError (e : exn).

(** The encoding of [sys.stdout] with its error handler: the characters
    outside ASCII that it writes.  ASCII is written by every encoding. *)
Class Console := { encodes : char -> bool }.

Definition ARROW : char := 0x2192%N.

(** [str(e)], as far as it can hold characters outside ASCII: the message
    that the raiser chose.  The messages worded by the interpreter and by
    [sqlite3] are ASCII. *)
Definition exn_text (e : exn) : str :=
  match e with
  | ValueError msg | HttpError msg | OtherError msg => msg
  | BinasciiError | IndexError | AttributeError | IntegrityError
  | UnicodeEncodeError | OverflowError => []
  end.

(** [f"{msg_id}"]; [None] is written as the word. *)
Definition id_text (o : option str) : str := default [] o.

(** The text of a line, as far as it can hold characters outside ASCII:
    the values put into it, and the arrow of the line of [draft_reply]. *)
Definition line_text (l : line) : str :=
  match l with
  | PollingInbox _ | NoUnread | FoundUnread _ | ListUnreadCut => []
  | ProcessedLine msg_id draft_id => id_text msg_id ++ id_text draft_id
  | ErrorProcessing msg_id e => id_text msg_id ++ exn_text e
  | ErrorInJob e => exn_text e
  | ListUnreadError e => exn_text e
  | OpenAIError e => ARROW :: exn_text e
  end.

(** What is written of a line before the argument that cannot be encoded. *)
Definition cut (l : line) : list line :=
  match l with
  | ListUnreadError _ => [ListUnreadCut]
  | _ => []
  end.

(** The state of the process: the outside world (mailbox, generation
    service, clock), the drafts database and standard output. *)
Record Sys (W : Type) := {
  world : W;
  database : DB;
  stdout : list line
}.
Arguments world {W} s.
Arguments database {W} s.
Arguments stdout {W} s.

(** Run a call of the outside world. *)
Definition call {W A} (m : eff W A) : eff (Sys W) A :=
  fun s =>
    let '(r, w) := m (world s) in
    (r, {| world := w; database := database s; stdout := stdout s |}).

Definition can_write {C : Console} (text : str) : bool :=
  forallb (fun c => (c <? 128)%N || encodes c) text.

(** [print(l)]: the line is encoded when it is written, and a character
    that the encoding lacks raises [UnicodeEncodeError]. *)
Definition print {C : Console} {W} (l : line) : eff (Sys W) unit :=
  fun s =>
    if can_write (line_text l)
    then (Ok tt, {| world := world s; database := database s;
                    stdout := stdout s ++ [l] |})
    else (Raise UnicodeEncodeError,
          {| world := world s; database := database s;
             stdout := stdout s ++ cut l |}).


End Process.
Export Process.

(* ===================================================================== *)
(** ** app/llm_service.py *)
(* ===================================================================== *)

Module LLMService.

(** The part of a ChatCompletion response that [draft_reply] reads:
    [response.choices[0].message.content]. *)
Record ChatMessage := { content : option str }.
Record Choice := { message : ChatMessage }.
Record ChatResponse := { choices : list Choice }.

(** [openai.ChatCompletion.create(model, messages=[system, user], ...)] *)
Class OpenAI (W : Type) := {
  chat_completion_create : str -> str -> str -> eff W ChatResponse
}.

Record LLM := { model : str; system_prompt : str }.

Definition _DEFAULT_MODEL : str := u "gpt-3.5-turbo".
Definition _SYSTEM_PROMPT : str :=
  u "You are Jack, a friendly senior ER doctor & entrepreneur. "
  ++ u "Write concise, helpful, professional replies.".

Definition CANNED_REPLY : str :=
  u "I received your email and will get back to you soon.".

(** [xs[0]] *)
Definition first {A} (xs : list A) : result A :=
  match xs with
  | x :: _ => Ok x
  | [] => Raise IndexError
  end.

(** [o.strip()] where [o] may be [None]. *)
Definition strip_attr (o : option str) : result str :=
  match o with
  | Some s => Ok (strip s)
  | None => Raise AttributeError
  end.

Section WithOpenAI.
Context {C : Console} {W : Type} {AI : OpenAI W}.

(** The body of the [try] of [draft_reply]. *)
Definition request_reply (self : LLM) (clean_email : str) : eff (Sys W) str :=
  do! response :=
    call (chat_completion_create (model self) (system_prompt self) clean_email) in
  do! choice := lift (first (choices response)) in
  lift (strip_attr (content (message choice))).

(** [LLMService.draft_reply] *)
Definition draft_reply (self : LLM) (clean_email : str) : eff (Sys W) str :=
  etry (request_reply self clean_email)
    (fun exc =>
       do! _ := print (OpenAIError exc) in
       eret CANNED_REPLY).

End WithOpenAI.

End LLMService.
Export LLMService.

(* ===================================================================== *)
(** ** app/scheduler.py, with the [GmailService] methods it calls *)
(* ===================================================================== *)

Module Scheduler.

(** An entry of the unread listing; [msg.get('id')]. *)
Record UnreadRef := { ref_id : option str }.

(** The answer of the draft creation call; [draft.get('id')]. *)
Record DraftRef := { dr_id : option str }.

(** The Gmail API requests ([...execute()]) and the clock. *)
Class GmailAPI (W : Type) := {
  (** [messages().list(userId, labelIds=[INBOX, UNREAD], maxResults)],
      read as [resp.get("messages", []) or []] *)
  messages_list : N -> eff W (list UnreadRef);
  (** [messages().get(userId, id, format="full")] *)
  messages_get : option str -> eff W Message;
  (** [drafts().create(userId, body)] with the raw message and the
      thread id put in the body *)
  drafts_create : str -> option str -> eff W DraftRef;
  (** [messages().modify(userId, id, removeLabelIds=[UNREAD])] *)
  messages_modify_read : option str -> eff W unit;
  (** [datetime.now()], which reads the clock and cannot fail *)
  now : W -> Z * W
}.

(** The fields of [SchedulerService] read by [poll_inbox]:
    [self.gmail.user_email] and [self.llm]. *)
Record SchedulerService := {
  user_email : str;
  llm : LLM
}.

Section WithServices.
Context {L : PyLib} {C : Console} {W : Type} {G : GmailAPI W} {AI : OpenAI W}.

(** [datetime.now()] in the process. *)
Definition datetime_now : eff (Sys W) Z :=
  call (fun w => let '(t, w') := now w in (Ok t, w')).

(** [GmailService.list_unread] *)
Definition list_unread (max_results : N) : eff (Sys W) (list UnreadRef) :=
  etry (call (messages_list max_results))
    (fun exc =>
       match exc with
       | HttpError _ => do! _ := print (ListUnreadError exc) in eret []
       | _ => eraise exc
       end).

(** [GmailService.get_message] *)
Definition get_message (msg_id : option str) : eff (Sys W) Message :=
  call (messages_get msg_id).

(** [GmailService.create_draft] *)
Definition create_draft (raw : str) (thread_id : option str) : eff (Sys W) DraftRef :=
  if negb (truthy raw)
  then eraise (ValueError (u "create_draft: raw payload is empty"))
  else call (drafts_create raw (if truthy_opt thread_id then thread_id else None)).

(** [GmailService.mark_read] *)
Definition mark_read (msg_id : option str) : eff (Sys W) unit :=
  call (messages_modify_read msg_id).

(** [DraftRepository.save_draft] on the database of the process. *)
Definition db_save_draft (message_id draft_id : option str)
    (reply_text status : str) : eff (Sys W) Z :=
  do! t1 := datetime_now in
  do! t2 := datetime_now in
  fun s =>
    let '(r, db) := save_draft (database s) t1 t2 message_id draft_id reply_text status in
    (r, {| world := world s; database := db; stdout := stdout s |}).

(** The body of the inner [try] of [poll_inbox]. *)
Definition process_message (self : SchedulerService) (msg_id : option str)
    : eff (Sys W) unit :=
  do! full_message := get_message msg_id in
  do! clean_content := lift (strip_quotes full_message) in
  do! reply_text := draft_reply (llm self) clean_content in
  let thread_id :=
    if truthy_opt (threadId full_message) then threadId full_message else msg_id in
  do! raw_mime := lift (build_mime reply_text full_message (user_email self)) in
  do! draft := create_draft raw_mime thread_id in
  let draft_id := dr_id draft in
  do! _ := db_save_draft msg_id draft_id reply_text PENDING in
  do! _ := mark_read msg_id in
  print (ProcessedLine msg_id draft_id).

(** One iteration of [for msg in messages:]. *)
Definition handle_message (self : SchedulerService) (msg : UnreadRef)
    : eff (Sys W) unit :=
  let msg_id := ref_id msg in
  etry (process_message self msg_id)
    (fun e => print (ErrorProcessing msg_id e)).

(** The loop [for msg in messages:]. *)
Fixpoint for_messages (self : SchedulerService) (messages : list UnreadRef)
    : eff (Sys W) unit :=
  match messages with
  | [] => eret tt
  | msg :: rest =>
      do! _ := handle_message self msg in
      for_messages self rest
  end.

(** The body of the outer [try] of [poll_inbox]. *)
Definition poll_unread (self : SchedulerService) : eff (Sys W) unit :=
  do! messages := list_unread 50 in
  match messages with
  | [] => print NoUnread
  | _ :: _ =>
      do! _ := print (FoundUnread (length messages)) in
      for_messages self messages
  end.

(** [SchedulerService.poll_inbox] *)
Definition poll_inbox (self : SchedulerService) : eff (Sys W) unit :=
  do! t := datetime_now in
  do! _ := print (PollingInbox t) in
  etry (poll_unread self) (fun e => print (ErrorInJob e)).

End WithServices.

End Scheduler.
Export Scheduler.

(* ===================================================================== *)
(** ** Example data *)
(* ===================================================================== *)

Module Examples.

Definition header (name value : string) : Header :=
  {| h_name := u name; h_value := u value |}.

(** A message whose body is one [text/plain] part. *)
Definition plain_message (headers : list Header) (b64 : string) : Message :=
  {| payload_parts := [MkPart (u "text/plain") (u b64) []];
     payload_headers := headers;
     snippet := [];
     threadId := None |}.

Definition from_alice : Header := header "From" "alice@example.org".

(** The bodies of the examples and their base-64url encodings. *)
Definition body_hello : str := u "Hello" ++ nl ++ u "> quoted line" ++ nl ++ u "more".
Definition b64_hello : string := "SGVsbG8KPiBxdW90ZWQgbGluZQptb3Jl".

Definition body_thanks : str :=
  u "Thanks!" ++ nl ++ u "On Mon, Jan 1, 2024, X wrote:" ++ nl ++ u "...old...".
Definition b64_thanks : string :=
  "VGhhbmtzIQpPbiBNb24sIEphbiAxLCAyMDI0LCBYIHdyb3RlOgouLi5vbGQuLi4".

Definition body_indented : str := u " Hi" ++ nl ++ u "> q".
Definition b64_indented : string := "IEhpCj4gcQ".

Definition body_all_quoted : str := u "> old " ++ nl.
Definition b64_all_quoted : string := "PiBvbGQgCg".

Definition body_blank : str := u "  " ++ nl.
Definition b64_blank : string := "ICAK".

(** Messages that differ in their headers only. *)
Definition with_subject (subject : string) : Message :=
  plain_message [from_alice; header "Subject" subject] b64_hello.
Definition without_subject : Message := plain_message [from_alice] b64_hello.
Definition without_from : Message :=
  plain_message [header "Subject" "hello"; header "To" "me@example.org"] b64_hello.

(** Two sibling [text/plain] parts, "A" then "B". *)
Definition part_A : Part := MkPart (u "text/plain") (u "QQ") [].
Definition part_B : Part := MkPart (u "text/plain") (u "Qg") [].

(** A table with one rejected draft and one pending draft. *)
Definition rejected_row : Draft :=
  {| row_id := 1; message_id := u "m1"; draft_id := u "draft-m1";
     reply_text := u "Thank you."; status := REJECTED;
     created_at := 10; updated_at := 20 |}.
Definition pending_row : Draft :=
  {| row_id := 2; message_id := u "m2"; draft_id := u "draft-m2";
     reply_text := u "See you then."; status := PENDING;
     created_at := 30; updated_at := 30 |}.
Definition reviewed_db : DB :=
  {| rows := [rejected_row; pending_row]; autoinc := 2 |}.

(** *** A mailbox and a generation service to run the pipeline on *)

Record World := {
  inbox : list (str * Message);      (* the messages, by id *)
  unread : list str;                 (* the ids labelled UNREAD *)
  drafts : list (str * option str);  (* raw message and thread of each draft *)
  clock : Z
}.

Definition set_unread (ids : list str) (w : World) : World :=
  {| inbox := inbox w; unread := ids; drafts := drafts w; clock := clock w |}.
Definition add_draft (d : str * option str) (w : World) : World :=
  {| inbox := inbox w; unread := unread w; drafts := drafts w ++ [d];
     clock := clock w |}.
Definition tick (w : World) : World :=
  {| inbox := inbox w; unread := unread w; drafts := drafts w;
     clock := (clock w + 1)%Z |}.

Definition lookup_message (msg_id : str) (w : World) : option Message :=
  option_map snd (List.find (fun e => str_eqb (fst e) msg_id) (inbox w)).

#[local] Instance mailbox : GmailAPI World := {|
  messages_list := fun max_results w =>
    (Ok (map (fun i => {| ref_id := Some i |})
           (firstn (N.to_nat max_results) (unread w))), w);
  messages_get := fun msg_id w =>
    match msg_id with
    | Some i =>
        match lookup_message i w with
        | Some m => (Ok m, w)
        | None => (Raise (HttpError (u "404")), w)
        end
    | None => (Raise (HttpError (u "400")), w)
    end;
  drafts_create := fun raw thread_id w =>
    (Ok {| dr_id := Some (u "draft-" ++ default [] thread_id) |},
     add_draft (raw, thread_id) w);
  messages_modify_read := fun msg_id w =>
    (Ok tt,
     set_unread (List.filter (fun i => negb (bool_decide (Some i = msg_id)))
                   (unread w)) w);
  now := fun w => (clock w, tick w)
|}.

(** The generation service answers every request but the text "down". *)
#[local] Instance generator : OpenAI World := {|
  chat_completion_create := fun model system user w =>
    if str_eqb user (u "down")
    then (Raise (OtherError (u "service unavailable")), w)
    else (Ok {| choices :=
                 [{| message := {| content := Some (u " Thank you. ") |} |}] |},
          w)
|}.

(** Two encodings of standard output: UTF-8 and Latin-1. *)
Definition utf8 : Console := {| encodes := fun _ => true |}.
Definition latin1 : Console := {| encodes := fun c => (c <? 256)%N |}.

Definition jack : LLM :=
  {| model := _DEFAULT_MODEL; system_prompt := _SYSTEM_PROMPT |}.
Definition service : SchedulerService :=
  {| user_email := u "jack@example.org"; llm := jack |}.

(** Three unread messages; the second has no [From] header. *)
Definition three_unread : World :=
  {| inbox := [(u "m1", with_subject "hello");
               (u "m2", without_from);
               (u "m3", plain_message [from_alice] b64_thanks)];
     unread := [u "m1"; u "m2"; u "m3"];
     drafts := [];
     clock := 100 |}.

(** One unread message whose text the generation service refuses. *)
Definition outage : World :=
  {| inbox := [(u "m4", plain_message [from_alice] "ZG93bg")];
     unread := [u "m4"];
     drafts := [];
     clock := 100 |}.

Definition start (w : World) : Sys World :=
  {| world := w; database := empty_db; stdout := [] |}.

Definition unread_ref (msg_id : string) : UnreadRef :=
  {| ref_id := Some (u msg_id) |}.

(** The loop and the processing of one message on this mailbox, and the
    cycle on a given standard output. *)
Definition run_loop_on (C : Console) : list UnreadRef -> eff (Sys World) unit :=
  for_messages (L := cpython) (C := C) service.
Definition run_one_on (C : Console) : option str -> eff (Sys World) unit :=
  process_message (L := cpython) (C := C) service.
Definition run_cycle (C : Console) : eff (Sys World) unit :=
  poll_inbox (L := cpython) (C := C) service.
Definition run_loop : list UnreadRef -> eff (Sys World) unit := run_loop_on utf8.
Definition run_one : option str -> eff (Sys World) unit := run_one_on utf8.

End Examples.

(* ===================================================================== *)
(** ** app/draft_repo.py: the queries and the removal *)
(* ===================================================================== *)

Module Repo.

(** [delete_draft] *)
Definition delete_draft (db : DB) (db_id : Z) : bool * DB :=
  let rowcount := length (List.filter (fun r => (row_id r =? db_id)%Z) (rows db)) in
  (Nat.ltb 0 rowcount,
   {| rows := List.filter (fun r => negb (row_id r =? db_id)%Z) (rows db);
      autoinc := autoinc db |}).

(** [ORDER BY created_at DESC]: [r] goes before the first row that is not
    newer than it, so rows of equal time stay in table order. *)
Fixpoint insert_desc (r : Draft) (sorted : list Draft) : list Draft :=
  match sorted with
  | [] => [r]
  | x :: t =>
      if (created_at x <=? created_at r)%Z then r :: x :: t
      else x :: insert_desc r t
  end.

Definition order_by_created_desc (l : list Draft) : list Draft :=
  foldr insert_desc [] l.

(** [get_pending_drafts] *)
Definition get_pending_drafts (db : DB) : list Draft :=
  order_by_created_desc
    (List.filter (fun r => str_eqb (status r) PENDING) (rows db)).


(** What the table keeps: [id] is a primary key, and the AUTOINCREMENT
    counter is at least every id in the table. *)
Definition db_wf (db : DB) : Prop :=
  List.NoDup (map row_id (rows db)) /\
  Forall (fun r => (row_id r <= autoinc db)%Z) (rows db).

(** Newest first. *)
Definition newest_first (l : list Draft) : Prop :=
  StronglySorted (fun a b => (created_at b <= created_at a)%Z) l.

End Repo.

(* ===================================================================== *)
(** ** app/draft_repo.py: the methods called with any [int] *)
(* ===================================================================== *)

Module Store.

(** [sqlite3] binds a Python [int] as a signed 64-bit integer and raises
    [OverflowError] for any other, before the statement runs: nothing is
    read or written, and no lock is taken. *)
Definition fits_int64 (n : Z) : bool :=
  ((- 2 ^ 63 <=? n) && (n <? 2 ^ 63))%Z.

(** [DraftRepository.get_draft] *)
Definition get_draft (db : DB) (db_id : Z) : result (option Draft) :=
  if fits_int64 db_id then Ok (DraftRepo.get_draft db db_id)
  else Raise OverflowError.

(** [DraftRepository.update_draft_status] *)
Definition update_draft_status (db : DB) (now : Z) (db_id : Z) (status : str)
    (updated_text : option str) : result bool * DB :=
  if fits_int64 db_id then
    let '(success, db') :=
      DraftRepo.update_draft_status db now db_id status updated_text in
    (Ok success, db')
  else (Raise OverflowError, db).

(** [DraftRepository.delete_draft] *)
Definition delete_draft (db : DB) (db_id : Z) : result bool * DB :=
  if fits_int64 db_id then
    let '(success, db') := Repo.delete_draft db db_id in
    (Ok success, db')
  else (Raise OverflowError, db).

End Store.

(* ===================================================================== *)
(** ** app/gmail_service.py: the methods on drafts *)
(* ===================================================================== *)

Module Gmail.

(** The Gmail API requests on drafts ([...execute()]). *)
Class DraftsAPI (W : Type) := {
  (** [drafts().get(userId, id)], read as
      [draft["message"]["payload"]["headers"]] *)
  drafts_get : str -> eff W (list Header);
  (** [drafts().update(userId, id, body)] with the raw message in the body *)
  drafts_update : str -> str -> eff W DraftRef;
  (** [drafts().send(userId, body)] with the draft id in the body *)
  drafts_send : str -> eff W unit;
  (** [drafts().delete(userId, id)] *)
  drafts_delete : str -> eff W unit
}.

Section WithDrafts.
Context {L : PyLib} {W : Type} {D : DraftsAPI W}.

(** The message that [update_draft] builds from the headers of the draft:
    [MIMEText(new_text, _charset="utf-8")] with [To] and [Subject]. *)
Definition edited_message (new_text : str) (headers : list Header)
    : result MIMEText :=
  let hdrs := header_dict headers in
  let to :=
    match hdrs !! u "to" with
    | Some v => v
    | None => default [] (hdrs !! u "from")
    end in
  let subj := default (u "Re:") (hdrs !! u "subject") in
  let! mime := MIMEText_utf8 new_text in
  let mime := set_header (u "To") to mime in
  Ok (set_header (u "Subject") subj mime).

(** [GmailService.update_draft] *)
Definition update_draft (draft_id new_text : str) : eff (Sys W) DraftRef :=
  do! headers := call (drafts_get draft_id) in
  do! raw := lift (let! mime := edited_message new_text headers in mime_raw mime) in
  call (drafts_update draft_id raw).

(** [GmailService.send_draft] *)
Definition send_draft (draft_id : str) : eff (Sys W) unit :=
  call (drafts_send draft_id).

(** [GmailService.delete_draft] *)
Definition delete_draft (draft_id : str) : eff (Sys W) unit :=
  call (drafts_delete draft_id).

End WithDrafts.

End Gmail.

(* ===================================================================== *)
(** ** app/main.py: the three actions on a draft *)
(* ===================================================================== *)

Module Main.

(** What a request can end with instead of a response: an
    [HTTPException] raised by the endpoint, the [TypeError] of subscripting
    an object that is not a record, an exception of a call, or the refusal
    of the request by the framework (status 422) before the endpoint runs. *)
Inductive failure :=
| HTTPException (status_code : Z) (detail : str)
| TypeError
| Uncaught (e : exn)
| RequestValidationError.

(** [RedirectResponse(url, status_code=303)] *)
Record RedirectResponse := { location : str; redirect_status : Z }.

Inductive outcome :=
| Responded (r : RedirectResponse)
| Failed (f : failure).

Definition handler (W : Type) : Type := Sys W -> outcome * Sys W.

Definition redirect {W} (url : string) : handler W :=
  fun s => (Responded {| location := u url; redirect_status := 303 |}, s).

(** Run a call; an exception of the call ends the request. *)
Definition after {W A} (m : eff (Sys W) A) (k : A -> handler W) : handler W :=
  fun s =>
    match m s with
    | (Ok a, s') => k a s'
    | (Raise e, s') => (Failed (Uncaught e), s')
    end.

Section WithApp.
Context {L : PyLib} {W : Type} {G : GmailAPI W} {D : Gmail.DraftsAPI W}.

(** [db.get_draft] on the database of the process. *)
Definition db_get_draft (db_id : Z) : eff (Sys W) (option Draft) :=
  fun s => (Store.get_draft (database s) db_id, s).

(** [db.update_draft_status] on the database of the process: the time is
    read when the parameters are built, before the id is bound. *)
Definition db_update_draft_status (db_id : Z) (status : str)
    (updated_text : option str) : eff (Sys W) bool :=
  do! t := datetime_now in
  fun s =>
    let '(r, db) :=
      Store.update_draft_status (database s) t db_id status updated_text in
    (r, {| world := world s; database := db; stdout := stdout s |}).

(** [d["draft_id"]] where [d = db.get_draft(db_id) or HTTPException(...)]:
    when no record has the id, [d] is the exception object that [or]
    yields, and subscripting it fails. *)
Definition draft_id_of (d : option Draft) (k : str -> handler W) : handler W :=
  match d with
  | Some d => k (draft_id d)
  | None => fun s => (Failed TypeError, s)
  end.

(** [send] *)
Definition send (db_id : Z) : handler W :=
  after (db_get_draft db_id) (fun d =>
  draft_id_of d (fun draft_id =>
  after (Gmail.send_draft draft_id) (fun _ =>
  after (db_update_draft_status db_id SENT_NO_EDIT None) (fun _ =>
  redirect "/drafts?msg=sent")))).

(** [send_edit]: the form field [edited_text] is required, and the
    framework refuses a request whose field is empty. *)
Definition send_edit (db_id : Z) (edited_text : str) : handler W :=
  if negb (truthy edited_text) then fun s => (Failed RequestValidationError, s)
  else
    after (db_get_draft db_id) (fun d =>
    draft_id_of d (fun draft_id =>
    after (Gmail.update_draft draft_id edited_text) (fun _ =>
    after (Gmail.send_draft draft_id) (fun _ =>
    after (db_update_draft_status db_id SENT_WITH_EDIT (Some edited_text)) (fun _ =>
    redirect "/drafts?msg=sent_edit"))))).

(** [reject] *)
Definition reject (db_id : Z) : handler W :=
  after (db_update_draft_status db_id REJECTED None) (fun found =>
    if negb found
    then fun s => (Failed (HTTPException 404 (u "Draft not found")), s)
    else redirect "/drafts?msg=rejected").

End WithApp.

End Main.

(* ===================================================================== *)
(** ** More example data *)
(* ===================================================================== *)

Module Scenarios.

Import Examples.

(** The provider knows the drafts of the two reviewed records. *)
Definition known_draft (draft_id : str) : bool :=
  str_eqb draft_id (u "draft-m1") || str_eqb draft_id (u "draft-m2").

Definition stored_headers : list Header :=
  [header "MIME-Version" "1.0";
   header "To" "alice@example.org";
   header "From" "jack@example.org";
   header "Subject" "Re: hello";
   header "In-Reply-To" "<1@example.org>";
   header "References" "<1@example.org>"].

#[local] Instance drafts_box : Gmail.DraftsAPI World := {|
  Gmail.drafts_get := fun draft_id w =>
    if known_draft draft_id then (Ok stored_headers, w)
    else (Raise (HttpError (u "404")), w);
  Gmail.drafts_update := fun draft_id raw w =>
    if known_draft draft_id
    then (Ok {| dr_id := Some draft_id |}, add_draft (raw, None) w)
    else (Raise (HttpError (u "404")), w);
  Gmail.drafts_send := fun draft_id w =>
    if known_draft draft_id then (Ok tt, w)
    else (Raise (HttpError (u "404")), w);
  Gmail.drafts_delete := fun draft_id w =>
    if known_draft draft_id then (Ok tt, w)
    else (Raise (HttpError (u "404")), w)
|}.

(** An original message with a message id, and one whose [From] header
    is empty. *)
Definition threaded : Message :=
  plain_message [from_alice; header "Subject" "hello";
                 header "Message-ID" "<1@example.org>"] b64_hello.
Definition with_empty_from : Message :=
  plain_message [header "From" ""; header "Subject" "hello"] b64_hello.

(** The process with the reviewed table. *)
Definition reviewing : Sys World :=
  {| world := three_unread; database := reviewed_db; stdout := [] |}.

(** A record whose draft the provider does not know. *)
Definition orphan_row : Draft :=
  {| row_id := 3; message_id := u "m9"; draft_id := u "draft-m9";
     reply_text := u "Noted."; status := PENDING;
     created_at := 35; updated_at := 35 |}.
Definition orphaned : Sys World :=
  {| world := three_unread;
     database := {| rows := [rejected_row; pending_row; orphan_row]; autoinc := 3 |};
     stdout := [] |}.

End Scenarios.

(* ===================================================================== *)
(** ** What a computation may add to the table *)
(* ===================================================================== *)

Module Growth.



End Growth.

(* ===================================================================== *)
(** ** app/main.py: the rows of the drafts table *)
(* ===================================================================== *)

Module Page.

(** [s.replace(old, new)] for a one-character [old]. *)
Definition replace_char (old : char) (new : str) (s : str) : str :=
  flat_map (fun c => if (c =? old)%N then new else [c]) s.

(** [html.escape(s)]: the ampersand first, then the angle brackets and
    the two quotes. *)
Definition html_escape (s : str) : str :=
  let s := replace_char 0x26%N (u "&amp;") s in
  let s := replace_char 0x3C%N (u "&lt;") s in
  let s := replace_char 0x3E%N (u "&gt;") s in
  let s := replace_char 0x22%N (u "&quot;") s in
  replace_char 0x27%N (u "&#x27;") s.

(** A record as [drafts_page] hands it to [build_table]: the row of the
    table with the subject, the sender and the clean body of its message. *)
Record Shown := {
  draft : Draft;
  subject : str;
  sender : str;
  body : str
}.

Definition ELLIPSIS : str := [0x2026%N].

(** The local variables of [mk_row]. *)
Definition subj (d : Shown) : str := html_escape (subject d).
Definition sender_cell (d : Shown) : str := html_escape (sender d).
Definition body_pv (d : Shown) : str :=
  html_escape (firstn 120 (body d)
               ++ (if Nat.ltb 120 (length (body d)) then ELLIPSIS else [])).
Definition reply_pv (d : Shown) : str :=
  html_escape (firstn 120 (reply_text (draft d)) ++ ELLIPSIS).
Definition sent_pv (d : Shown) : str :=
  if startswith (status (draft d)) (u "sent") then reply_pv d else [].

(** Whether [actions] holds the three buttons. *)
Definition has_actions (d : Shown) : bool := str_eqb (status (draft d)) PENDING.

(** The characters that open or close a tag or an attribute value. *)
Definition is_markup (c : char) : bool :=
  (c =? 0x3C)%N || (c =? 0x3E)%N || (c =? 0x22)%N || (c =? 0x27)%N.

End Page.

(* ===================================================================== *)
(** * Properties *)
(* ===================================================================== *)

(** ** The pattern matcher agrees with the language of the pattern *)

Section RegexFacts.

Lemma lang_void s : lang Void s -> False.
Proof. inversion 1. Qed.

Lemma lang_eps s : lang Eps s <-> s = [].
Proof. split; [inversion 1; reflexivity | intros ->; constructor]. Qed.

Lemma lang_cls p s : lang (Cls p) s <-> exists c, s = [c] /\ p c = true.
Proof.
  split.
  - inversion 1; subst; eauto.
  - intros (c & -> & Hc). now constructor.
Qed.

Lemma lang_seq_inv r1 r2 s :
  lang (Seq r1 r2) s <-> exists s1 s2, s = s1 ++ s2 /\ lang r1 s1 /\ lang r2 s2.
Proof.
  split.
  - inversion 1; subst; eauto.
  - intros (s1 & s2 & -> & H1 & H2). now constructor.
Qed.

Lemma lang_alt_inv r1 r2 s : lang (Alt r1 r2) s <-> lang r1 s \/ lang r2 s.
Proof.
  split.
  - inversion 1; subst; auto.
  - intros [H|H]; [now apply L_alt_l | now apply L_alt_r].
Qed.

Lemma nullable_lang r : nullable r = true <-> lang r [].
Proof.
  induction r as [| |p|r1 IH1 r2 IH2|r1 IH1 r2 IH2|r IH]; simpl.
  - split; [discriminate | intros H; destruct (lang_void _ H)].
  - split; [constructor | reflexivity].
  - split; [discriminate | inversion 1].
  - rewrite andb_true_iff, IH1, IH2, lang_seq_inv. split.
    + intros [H1 H2]. exists [], []. auto.
    + intros (s1 & s2 & Heq & H1 & H2).
      symmetry in Heq. apply app_eq_nil in Heq as [-> ->]. auto.
  - rewrite orb_true_iff, IH1, IH2, lang_alt_inv. reflexivity.
  - split; [constructor | reflexivity].
Qed.

Lemma lang_seq_smart r1 r2 s : lang (mk_seq r1 r2) s <-> lang (Seq r1 r2) s.
Proof.
  assert (HV1 : forall r, lang (Seq Void r) s -> False).
  { intros r H. apply lang_seq_inv in H as (? & ? & _ & H1 & _).
    exact (lang_void _ H1). }
  assert (HV2 : forall r, lang (Seq r Void) s -> False).
  { intros r H. apply lang_seq_inv in H as (? & ? & _ & _ & H2).
    exact (lang_void _ H2). }
  assert (HE : forall r, lang (Seq Eps r) s <-> lang r s).
  { intros r. rewrite lang_seq_inv. split.
    - intros (s1 & s2 & -> & H1 & H2). apply lang_eps in H1 as ->. exact H2.
    - intros H. exists [], s. repeat split; [constructor | exact H]. }
  destruct r1, r2; simpl; try reflexivity;
    try (split; [intros H; destruct (lang_void _ H) | intros H; exfalso; eauto]);
    try (symmetry; apply HE).
Qed.

Lemma lang_alt_smart r1 r2 s : lang (mk_alt r1 r2) s <-> lang (Alt r1 r2) s.
Proof.
  rewrite lang_alt_inv.
  destruct r1, r2; simpl; try rewrite lang_alt_inv; try reflexivity;
    split; auto;
    intros [H|H]; auto; exfalso; exact (lang_void _ H).
Qed.

(** A non-empty word of a starred pattern starts with a non-empty word of
    the pattern. *)
Lemma lang_star_cons r c s :
  lang (Star r) (c :: s) ->
  exists s1 s2, s = s1 ++ s2 /\ lang r (c :: s1) /\ lang (Star r) s2.
Proof.
  intros H. remember (Star r) as r' eqn:Hr. remember (c :: s) as w eqn:Hw.
  induction H as [| | | | | |r0 s1 s2 H1 _ H2 IH2]; try discriminate.
  injection Hr as ->.
  destruct s1 as [|c1 s1]; simpl in Hw.
  - apply IH2; auto.
  - injection Hw as Hc Hs. subst c1 s. eauto.
Qed.

Lemma deriv_lang c r : forall s, lang (deriv c r) s <-> lang r (c :: s).
Proof.
  induction r as [| |p|r1 IH1 r2 IH2|r1 IH1 r2 IH2|r IH]; intros s; simpl.
  - split; inversion 1.
  - split; inversion 1.
  - destruct (p c) eqn:Hp.
    + rewrite lang_eps, lang_cls. split.
      * intros ->. eauto.
      * intros (c' & [= -> ->] & _). reflexivity.
    + rewrite lang_cls. split; [inversion 1|].
      intros (c' & [= -> ->] & Hc). congruence.
  - rewrite lang_alt_smart, lang_alt_inv, lang_seq_smart, !lang_seq_inv. split.
    + intros [(s1 & s2 & -> & H1 & H2)|H].
      * exists (c :: s1), s2. rewrite <- IH1. auto.
      * destruct (nullable r1) eqn:Hn; [|destruct (lang_void _ H)].
        exists [], (c :: s). rewrite <- IH2, <- nullable_lang. auto.
    + intros (s1 & s2 & Heq & H1 & H2). destruct s1 as [|c1 s1]; simpl in Heq.
      * subst s2. right. apply nullable_lang in H1. rewrite H1.
        now apply IH2.
      * injection Heq as <- ->. left. exists s1, s2. rewrite IH1. auto.
  - rewrite lang_alt_smart, !lang_alt_inv, IH1, IH2. reflexivity.
  - rewrite lang_seq_smart, lang_seq_inv. split.
    + intros (s1 & s2 & -> & H1 & H2). apply IH in H1.
      change (c :: s1 ++ s2) with ((c :: s1) ++ s2). now constructor.
    + intros H. apply lang_star_cons in H as (s1 & s2 & -> & H1 & H2).
      exists s1, s2. rewrite IH. auto.
Qed.

(** [re_match] holds exactly when a prefix is in the language. *)
Lemma re_match_spec s : forall r,
  re_match r s = true <-> exists p t, s = p ++ t /\ lang r p.
Proof.
  induction s as [|c s IH]; intros r; simpl.
  - rewrite orb_false_r, nullable_lang. split.
    + intros H. exists [], []. auto.
    + intros (p & t & Heq & H). symmetry in Heq.
      apply app_eq_nil in Heq as [-> _]. exact H.
  - rewrite orb_true_iff, nullable_lang, IH. split.
    + intros [H|(p & t & -> & H)].
      * exists [], (c :: s). auto.
      * exists (c :: p), t. rewrite <- deriv_lang. auto.
    + intros (p & t & Heq & H). destruct p as [|c' p]; simpl in Heq.
      * now left.
      * injection Heq as <- ->. right. exists p, t. rewrite deriv_lang. auto.
Qed.

Lemma lang_lit l s : lang (Lit l) s <-> s = l.
Proof.
  revert s. induction l as [|c l IH]; intros s; simpl.
  - apply lang_eps.
  - rewrite lang_seq_inv. split.
    + intros (s1 & s2 & -> & H1 & H2). apply lang_cls in H1 as (c' & -> & Hc).
      apply N.eqb_eq in Hc as <-. apply IH in H2 as ->. reflexivity.
    + intros ->. exists [c], l. repeat split.
      * apply lang_cls. exists c. split; [reflexivity | apply N.eqb_refl].
      * now apply IH.
Qed.

Lemma lang_star_cls p s : lang (Star (Cls p)) s <-> forallb p s = true.
Proof.
  split.
  - intros H. remember (Star (Cls p)) as r eqn:Hr.
    induction H as [| | | | | |r0 s1 s2 H1 _ H2 IH2]; try discriminate.
    + reflexivity.
    + injection Hr as ->. apply lang_cls in H1 as (c & -> & Hc).
      simpl. rewrite Hc. now apply IH2.
  - induction s as [|c s IH]; simpl; intros H.
    + constructor.
    + apply andb_true_iff in H as [Hc Hs].
      change (c :: s) with ([c] ++ s). constructor; [now constructor | auto].
Qed.

End RegexFacts.

(** ** The quote pattern *)

Section QuotePattern.

Lemma lang_quote_re p :
  lang QUOTE_RE p <->
  (exists n, p = 0x3E%N :: repeat 0x3E%N n) \/
  (exists ws mid,
     forallb isspace ws = true /\
     forallb (fun c => negb (c =? LF)%N) mid = true /\
     p = ws ++ u "On " ++ mid ++ u "wrote:").
Proof.
  unfold QUOTE_RE, Plus, Space, Dot. rewrite lang_alt_inv.
  apply Morphisms_Prop.or_iff_morphism.
  - rewrite lang_seq_inv. split.
    + intros (s1 & s2 & -> & H1 & H2). apply lang_eps in H1 as ->.
      apply lang_seq_inv in H2 as (a & b & -> & Ha & Hb).
      apply lang_cls in Ha as (c & -> & Hc). apply N.eqb_eq in Hc as <-.
      apply lang_star_cls in Hb. exists (length b). simpl. f_equal.
      clear -Hb. induction b as [|x b IH]; cbn [forallb length repeat] in *;
        [reflexivity|].
      apply andb_true_iff in Hb as [Hx Hb]. apply N.eqb_eq in Hx as <-.
      now rewrite <- IH.
    + intros (n & ->). exists [], (0x3E%N :: repeat 0x3E%N n).
      repeat split; [constructor|].
      change (0x3E%N :: repeat 0x3E%N n) with ([0x3E%N] ++ repeat 0x3E%N n).
      constructor.
      * apply lang_cls. eexists. split; [reflexivity | apply N.eqb_refl].
      * apply lang_star_cls. induction n; simpl; auto.
  - split.
    + intros H. apply lang_seq_inv in H as (ws & s2 & -> & Hws & H).
      apply lang_seq_inv in H as (on & s3 & -> & Hon & H).
      apply lang_seq_inv in H as (mid & wr & -> & Hmid & Hwr).
      apply lang_lit in Hon as ->. apply lang_lit in Hwr as ->.
      apply lang_star_cls in Hws, Hmid. eauto.
    + intros (ws & mid & Hws & Hmid & ->).
      constructor; [now apply lang_star_cls|].
      constructor; [now apply lang_lit|].
      constructor; [now apply lang_star_cls | now apply lang_lit].
Qed.

(** The test of the loop holds exactly on quote markers. *)
Lemma quote_re_spec line : re_match QUOTE_RE line = true <-> quote_marker line.
Proof.
  rewrite re_match_spec. unfold quote_marker. split.
  - intros (p & t & -> & H). apply lang_quote_re in H as [(n & ->)|H].
    + left. simpl. eauto.
    + right. destruct H as (ws & mid & Hws & Hmid & ->).
      exists ws, mid, t. repeat split; auto.
      now rewrite <- !app_assoc.
  - intros [(t & ->)|(ws & mid & rest & Hws & Hmid & ->)].
    + exists [0x3E%N], t. split; [reflexivity|].
      apply lang_quote_re. left. now exists 0.
    + exists (ws ++ u "On " ++ mid ++ u "wrote:"), rest. split.
      * now rewrite <- !app_assoc.
      * apply lang_quote_re. right. eauto.
Qed.

Lemma before_quote_split lines :
  exists dropped,
    lines = before_quote lines ++ dropped /\
    Forall (fun l => ~ quote_marker l) (before_quote lines) /\
    match dropped with [] => True | l :: _ => quote_marker l end.
Proof.
  induction lines as [|l rest (dropped & Heq & Hall & Hfirst)]; simpl.
  - exists []. auto.
  - destruct (re_match QUOTE_RE l) eqn:Hm.
    + exists (l :: rest). repeat split; auto. now apply quote_re_spec.
    + exists dropped. repeat split; auto.
      * simpl. now f_equal.
      * constructor; auto. rewrite <- quote_re_spec. congruence.
Qed.

Lemma scan_lines_spec lines : forall cleaned,
  scan_lines lines cleaned = cleaned ++ map rstrip (before_quote lines).
Proof.
  induction lines as [|l rest IH]; intros cleaned; simpl.
  - now rewrite app_nil_r.
  - destruct (re_match QUOTE_RE l); simpl.
    + now rewrite app_nil_r.
    + rewrite IH, <- app_assoc. reflexivity.
Qed.

End QuotePattern.

(** ** The decoder and the traversal of the body tree *)

Section Traversal.
Context {L : PyLib}.

Lemma pad4_length data : (Z.of_nat (length (pad4 data)) mod 4 = 0)%Z.
Proof.
  unfold pad4, times. rewrite length_app, repeat_length.
  set (n := Z.of_nat (length data)).
  pose proof (Z.mod_pos_bound (- n) 4 ltac:(lia)) as Hb.
  rewrite Nat2Z.inj_add, Z2Nat.id by lia. fold n.
  pose proof (Z.div_mod (- n) 4 ltac:(lia)) as Hd.
  replace (n + (- n) mod 4)%Z with ((- ((- n) / 4)) * 4)%Z by lia.
  apply Z_mod_mult.
Qed.

Lemma pad4_idem data : pad4 (pad4 data) = pad4 data.
Proof.
  unfold pad4 at 1.
  replace ((- Z.of_nat (length (pad4 data))) mod 4)%Z with 0%Z.
  - simpl. apply app_nil_r.
  - pose proof (pad4_length data) as H.
    symmetry. apply Z.mod_divide; [lia|]. apply Z.mod_divide in H; [|lia].
    now apply Z.divide_opp_r.
Qed.

(** The value of the decoder on non-empty input. *)
Lemma b64decode_url_nonempty data :
  data <> [] ->
  _b64decode_url data =
  Ok match urlsafe_b64decode (pad4 data) with
     | Ok raw => decode_utf8_ignore raw
     | Raise _ => []
     end.
Proof.
  intros Hne. unfold _b64decode_url.
  destruct data as [|c t]; [congruence|]. simpl negb. cbv iota.
  destruct (urlsafe_b64decode (pad4 (c :: t))); reflexivity.
Qed.

Lemma b64decode_url_returns data : exists s, _b64decode_url data = Ok s.
Proof.
  destruct data as [|c t].
  - exists []. reflexivity.
  - rewrite b64decode_url_nonempty by discriminate. eauto.
Qed.

Lemma b64decode_url_decoded p : _b64decode_url (data p) = Ok (decoded p).
Proof.
  unfold decoded. destruct (b64decode_url_returns (data p)) as [s ->].
  reflexivity.
Qed.

Lemma leaves_eq p :
  leaves p = if is_multipart p then forest_leaves (parts p) else [p].
Proof. destruct p; reflexivity. Qed.

Lemma forest_leaves_app a b :
  forest_leaves (a ++ b) = forest_leaves a ++ forest_leaves b.
Proof. unfold forest_leaves. apply flat_map_app. Qed.

Lemma pop_Some {A} (l : list A) x r : pop l = Some (x, r) -> l = r ++ [x].
Proof.
  unfold pop. destruct (rev l) as [|y t] eqn:Hr; [discriminate|].
  intros [= -> <-]. apply (f_equal (@rev A)) in Hr.
  now rewrite rev_involutive in Hr.
Qed.

Lemma pop_None {A} (l : list A) : pop l = None -> l = [].
Proof.
  unfold pop. destruct (rev l) as [|y t] eqn:Hr; [|discriminate].
  intros _. apply (f_equal (@rev A)) in Hr. now rewrite rev_involutive in Hr.
Qed.

Lemma plain_not_html p : is_plain p = true -> is_html p = false.
Proof.
  unfold is_plain, is_html, str_eqb. intros H.
  apply bool_decide_eq_true in H. rewrite H. reflexivity.
Qed.

Lemma gathered_app keep a b :
  gathered keep (a ++ b) = gathered keep a ++ gathered keep b.
Proof. unfold gathered. now rewrite List.filter_app, flat_map_app. Qed.

(** The loop visits the leaves of its work list from the last to the
    first and appends what each one decodes to. *)
Lemma walk_spec todo text_part html_part :
  walk todo text_part html_part =
  Ok (text_part ++ gathered is_plain (rev (forest_leaves todo)),
      html_part ++ gathered is_html (rev (forest_leaves todo))).
Proof.
  funelim (walk todo text_part html_part).
  - clear Heqcall H3. apply pop_Some in Hpop as ->.
    rewrite forest_leaves_app in *. unfold forest_leaves at 2 4. simpl.
    rewrite app_nil_r, leaves_eq, rev_app_distr in *.
    destruct (is_multipart p) eqn:Hm.
    + exact H.
    + simpl. unfold gathered. cbn [List.filter].
      rewrite b64decode_url_decoded. cbn [bind].
      destruct (is_plain p) eqn:Hp.
      * rewrite (plain_not_html _ Hp). cbn [flat_map].
        rewrite H0, <- app_assoc. reflexivity.
      * destruct (is_html p) eqn:Hh; cbn [flat_map].
        -- rewrite H1, <- app_assoc. reflexivity.
        -- rewrite H2. reflexivity.
  - clear H Heqcall. apply pop_None in e as ->. unfold gathered. simpl.
    now rewrite !app_nil_r.
Qed.

End Traversal.

(** ** Text extraction: [_b64decode_url] and [strip_quotes] *)

Section Extraction.
Context {L : PyLib}.

Lemma clean_body_value body :
  clean_body body =
  or_else (strip (join nl (map rstrip (before_quote (splitlines body)))))
          (strip body).
Proof. unfold clean_body. now rewrite scan_lines_spec. Qed.

Lemma strip_quotes_value message :
  strip_quotes message =
  Ok (clean_body
        (select_body
           (gathered is_plain (rev (forest_leaves (payload_parts message))))
           (gathered is_html (rev (forest_leaves (payload_parts message))))
           (snippet message))).
Proof. unfold strip_quotes. rewrite walk_spec. reflexivity. Qed.

End Extraction.

Import Examples.

(** C9. The base-64url decoder never raises: on every input string it
    returns a string.  Input whose padding was omitted decodes like the
    same input padded back to a multiple of four characters; when the
    library accepts the padded input the result is its UTF-8 text, and
    when the library rejects it as malformed the result is the empty
    string.  Extraction is therefore never aborted: [strip_quotes] returns
    a text for every message. *)
Theorem b64decode_url_never_raises (L : PyLib) (data : str) :
  (exists s, _b64decode_url data = Ok s) /\
  _b64decode_url data = _b64decode_url (pad4 data) /\
  (forall raw, data <> [] -> urlsafe_b64decode (pad4 data) = Ok raw ->
     _b64decode_url data = Ok (decode_utf8_ignore raw)) /\
  (forall e, urlsafe_b64decode (pad4 data) = Raise e ->
     _b64decode_url data = Ok []) /\
  (forall message, exists text, strip_quotes message = Ok text).
Proof.
  split; [apply b64decode_url_returns|]. split; [|split; [|split]].
  - destruct data as [|c t]; [reflexivity|].
    rewrite !b64decode_url_nonempty, pad4_idem; try discriminate.
    reflexivity.
  - intros raw Hne Hraw. rewrite b64decode_url_nonempty, Hraw; auto.
  - intros e He. destruct data as [|c t]; [reflexivity|].
    rewrite b64decode_url_nonempty, He; [reflexivity | discriminate].
  - intros message. rewrite strip_quotes_value. eauto.
Qed.

(** The decoder of CPython rejects the single character "A", and accepts
    "SGVsbG8" as it accepts "SGVsbG8=". *)
Lemma b64decode_url_never_raises_witness :
  (urlsafe_b64decode (PyLib := cpython) (pad4 (u "A")) = Raise BinasciiError /\
   _b64decode_url (L := cpython) (u "A") = Ok []) /\
  (u "SGVsbG8" <> [] /\
   urlsafe_b64decode (PyLib := cpython) (pad4 (u "SGVsbG8")) = Ok (u "Hello") /\
   _b64decode_url (L := cpython) (u "SGVsbG8") = Ok (u "Hello")).
Proof.
  split.
  - split; [reflexivity|].
    exact (proj1 (proj2 (proj2 (proj2 (b64decode_url_never_raises cpython (u "A")))))
             BinasciiError eq_refl).
  - split; [discriminate|]. split; [reflexivity|].
    apply (proj1 (proj2 (proj2 (b64decode_url_never_raises cpython (u "SGVsbG8"))))
             (u "Hello")); [discriminate | reflexivity].
Defined.

(** C5, as amended.  Every leaf of the body tree is visited exactly once,
    in reverse document order: the plain-text accumulator is the
    concatenation of what the [text/plain] leaves decode to, taken from
    the last leaf of the document to the first, and likewise the HTML
    accumulator for the [text/html] leaves. *)
Theorem walk_reverse_document_order (L : PyLib) (forest : list Part) :
  walk forest [] [] =
    Ok (gathered is_plain (rev (forest_leaves forest)),
        gathered is_html (rev (forest_leaves forest))) /\
  Permutation (rev (forest_leaves forest)) (forest_leaves forest).
Proof.
  split.
  - rewrite walk_spec. reflexivity.
  - symmetry. apply Permutation_rev.
Qed.

(** Two sibling [text/plain] parts "A" then "B" are concatenated as "BA". *)
Lemma walk_siblings_reversed :
  forest_leaves [part_A; part_B] = [part_A; part_B] /\
  decoded (L := cpython) part_A = u "A" /\
  decoded (L := cpython) part_B = u "B" /\
  walk (L := cpython) [part_A; part_B] [] [] = Ok (u "BA", []) /\
  walk (L := cpython) [part_A; part_B] [] [] <> Ok (u "AB", []).
Proof.
  repeat split; try reflexivity.
  vm_compute. discriminate.
Qed.

(** C3, as amended.  The selected body is scanned line by line from the
    top; the first line that is a quote marker (one or more [>] at the
    start of the line, or optional white space followed by [On ... wrote:])
    is discarded together with all later lines.  The result is the earlier
    lines, each with its trailing white space trimmed, joined by newlines
    and then stripped of leading and trailing white space; when that text
    is empty the result is the selected body stripped of leading and
    trailing white space.  A message with plain-text body
    "Hello\n> quoted line\nmore" gives "Hello", and one with body
    "Thanks!\nOn Mon, Jan 1, 2024, X wrote:\n...old..." gives "Thanks!". *)
Theorem strip_quotes_drops_quoted_history :
  (forall (L : PyLib) (message : Message),
     exists text_part html_part dropped,
       walk (payload_parts message) [] [] = Ok (text_part, html_part) /\
       let body := select_body text_part html_part (snippet message) in
       let kept := before_quote (splitlines body) in
       splitlines body = kept ++ dropped /\
       Forall (fun l => ~ quote_marker l) kept /\
       match dropped with [] => True | l :: _ => quote_marker l end /\
       strip_quotes message =
         Ok (or_else (strip (join nl (map rstrip kept))) (strip body))) /\
  (_b64decode_url (L := cpython) (u b64_hello) = Ok body_hello /\
   strip_quotes (L := cpython) (plain_message [] b64_hello) = Ok (u "Hello")) /\
  (_b64decode_url (L := cpython) (u b64_thanks) = Ok body_thanks /\
   strip_quotes (L := cpython) (plain_message [] b64_thanks) = Ok (u "Thanks!")).
Proof.
  split; [|split; split; reflexivity].
  intros L message.
  pose proof (walk_spec (payload_parts message) [] []) as Hw. simpl in Hw.
  eexists _, _.
  destruct (before_quote_split
              (splitlines (select_body
                 (gathered is_plain (rev (forest_leaves (payload_parts message))))
                 (gathered is_html (rev (forest_leaves (payload_parts message))))
                 (snippet message))))
    as (dropped & Hsplit & Hkept & Hfirst).
  exists dropped. split; [exact Hw|]. cbv zeta.
  repeat split; auto.
  unfold strip_quotes. rewrite Hw. simpl. now rewrite clean_body_value.
Qed.

(** The result is not the retained lines joined: leading white space goes
    too (" Hi" gives "Hi"), and when nothing is retained the body comes
    back ("> old " gives "> old"). *)
Lemma strip_quotes_not_the_joined_lines :
  (_b64decode_url (L := cpython) (u b64_indented) = Ok body_indented /\
   map rstrip (before_quote (splitlines body_indented)) = [u " Hi"] /\
   strip_quotes (L := cpython) (plain_message [] b64_indented) = Ok (u "Hi") /\
   strip_quotes (L := cpython) (plain_message [] b64_indented)
     <> Ok (join nl (map rstrip (before_quote (splitlines body_indented))))) /\
  (_b64decode_url (L := cpython) (u b64_all_quoted) = Ok body_all_quoted /\
   map rstrip (before_quote (splitlines body_all_quoted)) = [] /\
   strip_quotes (L := cpython) (plain_message [] b64_all_quoted) = Ok (u "> old") /\
   strip_quotes (L := cpython) (plain_message [] b64_all_quoted)
     <> Ok (join nl (map rstrip (before_quote (splitlines body_all_quoted))))).
Proof.
  split; (split; [reflexivity|]); (split; [reflexivity|]);
    (split; [reflexivity|]); vm_compute; discriminate.
Qed.

(** C4, as amended.  When the retained lines, joined and stripped, are
    empty, the result is the selected body with its leading and trailing
    white space stripped (the empty string when the body is all white
    space). *)
Theorem strip_quotes_empty_fallback (L : PyLib) (message : Message)
    (text_part html_part : str) :
  walk (payload_parts message) [] [] = Ok (text_part, html_part) ->
  strip (join nl (map rstrip (before_quote (splitlines
    (select_body text_part html_part (snippet message)))))) = [] ->
  strip_quotes message =
    Ok (strip (select_body text_part html_part (snippet message))).
Proof.
  intros Hw Hempty. unfold strip_quotes. rewrite Hw. simpl.
  rewrite clean_body_value, Hempty. reflexivity.
Qed.

Lemma strip_quotes_empty_fallback_witness :
  walk (L := cpython) (payload_parts (plain_message [] b64_all_quoted)) [] []
    = Ok (body_all_quoted, []) /\
  strip (join nl (map rstrip (before_quote (splitlines
    (select_body (L := cpython) body_all_quoted [] []))))) = [] /\
  strip_quotes (L := cpython) (plain_message [] b64_all_quoted) = Ok (u "> old").
Proof.
  split; [reflexivity|]. split; [reflexivity|].
  apply (strip_quotes_empty_fallback cpython (plain_message [] b64_all_quoted)
           body_all_quoted []); reflexivity.
Defined.

(** The body "> old \n" comes back as "> old", not untrimmed; the body
    "  \n" comes back as the empty string. *)
Lemma strip_quotes_fallback_is_trimmed :
  (walk (L := cpython) (payload_parts (plain_message [] b64_all_quoted)) [] []
     = Ok (body_all_quoted, []) /\
   select_body (L := cpython) body_all_quoted [] [] = body_all_quoted /\
   strip (join nl (map rstrip (before_quote (splitlines body_all_quoted)))) = [] /\
   strip_quotes (L := cpython) (plain_message [] b64_all_quoted) = Ok (u "> old") /\
   strip_quotes (L := cpython) (plain_message [] b64_all_quoted)
     <> Ok body_all_quoted) /\
  (walk (L := cpython) (payload_parts (plain_message [] b64_blank)) [] []
     = Ok (body_blank, []) /\
   select_body (L := cpython) body_blank [] [] = body_blank /\
   strip (join nl (map rstrip (before_quote (splitlines body_blank)))) = [] /\
   strip_quotes (L := cpython) (plain_message [] b64_blank) = Ok [] /\
   strip_quotes (L := cpython) (plain_message [] b64_blank) <> Ok body_blank).
Proof.
  split; repeat (split; [reflexivity|]); vm_compute; discriminate.
Qed.

(** ** Reply composition: [build_mime] *)

Section Composer.
Context {L : PyLib}.

Lemma str_eqb_eq a b : str_eqb a b = true <-> a = b.
Proof. unfold str_eqb. apply bool_decide_eq_true. Qed.

Lemma str_eqb_neq a b : str_eqb a b = false <-> a <> b.
Proof. unfold str_eqb. apply bool_decide_eq_false. Qed.

(** The dictionary comprehension keeps, for each key, the last header. *)
Lemma header_dict_lookup headers key :
  header_dict headers !! key = header_value key headers.
Proof.
  unfold header_dict, header_value.
  induction headers as [|h hs IH] using rev_ind; [reflexivity|].
  rewrite foldl_app, rev_app_distr. simpl.
  destruct (str_eqb (lower (h_name h)) key) eqn:He.
  - apply str_eqb_eq in He as <-. now rewrite lookup_insert_eq.
  - apply str_eqb_neq in He. now rewrite lookup_insert_ne.
Qed.

Lemma header_value_None headers key :
  header_value key headers = None <->
  forall h, In h headers -> lower (h_name h) <> key.
Proof.
  unfold header_value. split.
  - intros H h Hin.
    destruct (List.find _ (rev headers)) eqn:Hf; [discriminate|].
    apply in_rev in Hin. apply (find_none _ _ Hf h) in Hin.
    now apply str_eqb_neq.
  - intros H. destruct (List.find _ (rev headers)) as [h|] eqn:Hf; [|reflexivity].
    apply find_some in Hf as [Hin He]. apply in_rev in Hin.
    apply str_eqb_eq in He. destruct (H h Hin He).
Qed.

(** A header added to a message is read under its name unless an earlier
    header has the name. *)
Lemma msg_header_set_header name a b m :
  msg_header name (set_header a b m)
  = match msg_header name m with
    | Some v => Some v
    | None => if str_eqb a name then Some b else None
    end.
Proof.
  unfold msg_header, set_header. cbn [mt_headers].
  induction (mt_headers m) as [|h hs IH]; simpl.
  - now destruct (str_eqb a name).
  - now destruct (str_eqb (fst h) name).
Qed.

Lemma MIMEText_utf8_Ok text msg :
  MIMEText_utf8 text = Ok msg ->
  existsb is_surrogate text = false /\
  mt_text msg = text /\
  mt_headers msg
  = [(u "Content-Type", u "text/plain; charset=" ++ [QUOTE] ++ u "utf-8" ++ [QUOTE]);
     (u "MIME-Version", u "1.0");
     (u "Content-Transfer-Encoding", u "base64")].
Proof.
  unfold MIMEText_utf8. destruct (existsb is_surrogate text); [discriminate|].
  now intros [= <-].
Qed.

End Composer.

(** C6.  When no header of the original message is named [From] in any
    case, [build_mime] raises the error for an unaddressable reply and
    produces no envelope. *)
Theorem build_mime_requires_from (L : PyLib) (reply_text : str)
    (original : Message) (from_addr : str) :
  (forall h, In h (payload_headers original) -> lower (h_name h) <> u "from") ->
  build_mime reply_text original from_addr = Raise InvalidOriginal /\
  forall raw, build_mime reply_text original from_addr <> Ok raw.
Proof.
  intros Hno. apply header_value_None in Hno.
  assert (H : build_mime reply_text original from_addr = Raise InvalidOriginal).
  { unfold build_mime, reply_message.
    rewrite !header_dict_lookup, Hno. reflexivity. }
  split; [exact H|]. intros raw. rewrite H. discriminate.
Qed.

Lemma build_mime_requires_from_witness :
  (forall h, In h (payload_headers without_from) ->
     lower (PyLib := cpython) (h_name h) <> u "from") /\
  build_mime (L := cpython) (u "Hi") without_from (u "me@example.org")
    = Raise InvalidOriginal.
Proof.
  assert (H : forall h, In h (payload_headers without_from) ->
                lower (PyLib := cpython) (h_name h) <> u "from").
  { intros h [<-|[<-|[]]]; vm_compute; discriminate. }
  split; [exact H|].
  exact (proj1 (build_mime_requires_from cpython (u "Hi") without_from
                  (u "me@example.org") H)).
Defined.

(** C7, as amended.  The composed subject is computed from the original
    subject with its leading and trailing white space stripped: that
    subject is reused when it starts with [re:] in any case, and is
    prefixed with [Re: ] otherwise; when the original has no subject, or
    one that is empty once stripped, the composed subject is
    [Re: your email].  The subject "hello" gives "Re: hello" and the
    subject "Re: hello" stays "Re: hello". *)
Theorem build_mime_subject :
  (forall (L : PyLib) (reply_text : str) (original : Message)
          (from_addr : str) (msg : MIMEText),
     reply_message reply_text original from_addr = Ok msg ->
     let subj :=
       strip (default [] (header_value (u "subject") (payload_headers original))) in
     build_mime reply_text original from_addr = mime_raw msg /\
     msg_header (u "Subject") msg =
       Some (if startswith (lower subj) (u "re:") then subj
             else if truthy subj then u "Re: " ++ subj
             else u "Re: your email")) /\
  composed_subject (L := cpython) (with_subject "hello") = Some (u "Re: hello") /\
  composed_subject (L := cpython) (with_subject "Re: hello") = Some (u "Re: hello") /\
  composed_subject (L := cpython) without_subject = Some (u "Re: your email").
Proof.
  split; [|repeat split; reflexivity].
  intros L reply_text original from_addr msg Hmsg. cbv zeta.
  split; [unfold build_mime; now rewrite Hmsg|].
  unfold reply_message in Hmsg. rewrite !header_dict_lookup in Hmsg.
  destruct (negb (truthy_opt _)); [discriminate|].
  destruct (MIMEText_utf8 reply_text) as [m0|e] eqn:Hm0; [|discriminate].
  apply MIMEText_utf8_Ok in Hm0 as (_ & _ & Hh0).
  cbn [Exc.bind] in Hmsg. injection Hmsg as <-.
  assert (Hbase : msg_header (u "Subject") m0 = None).
  { unfold msg_header. now rewrite Hh0. }
  destruct (truthy_opt (header_value (u "message-id") (payload_headers original)));
    rewrite !msg_header_set_header, Hbase;
    change (str_eqb (u "To") (u "Subject")) with false;
    change (str_eqb (u "From") (u "Subject")) with false;
    change (str_eqb (u "Subject") (u "Subject")) with true;
    cbv iota;
    (destruct (startswith _ (u "re:")); cbn [negb]; [reflexivity|];
     unfold or_else; now destruct (truthy _)).
Qed.

Lemma build_mime_subject_witness :
  reply_message (L := cpython) (u "Hi") (with_subject " hello") (u "me@example.org")
    = Ok {| mt_text := u "Hi";
            mt_headers := [(u "Content-Type",
                            u "text/plain; charset=" ++ [QUOTE] ++ u "utf-8" ++ [QUOTE]);
                           (u "MIME-Version", u "1.0");
                           (u "Content-Transfer-Encoding", u "base64");
                           (u "To", u "alice@example.org");
                           (u "From", u "me@example.org");
                           (u "Subject", u "Re: hello")] |} /\
  msg_header (u "Subject")
    {| mt_text := u "Hi";
       mt_headers := [(u "Content-Type",
                       u "text/plain; charset=" ++ [QUOTE] ++ u "utf-8" ++ [QUOTE]);
                      (u "MIME-Version", u "1.0");
                      (u "Content-Transfer-Encoding", u "base64");
                      (u "To", u "alice@example.org");
                      (u "From", u "me@example.org");
                      (u "Subject", u "Re: hello")] |}
    = Some (u "Re: hello").
Proof.
  split; [reflexivity|].
  exact (proj2 (proj1 build_mime_subject cpython (u "Hi") (with_subject " hello")
                  (u "me@example.org") _ eq_refl)).
Defined.

(** The subject " hello" gives "Re: hello", without the space that the
    original subject starts with; an empty subject gives "Re: your email". *)
Lemma build_mime_subject_is_stripped :
  (header_value (L := cpython) (u "subject") (payload_headers (with_subject " hello"))
     = Some (u " hello") /\
   spec_subject (L := cpython) (Some (u " hello")) = u "Re:  hello" /\
   composed_subject (L := cpython) (with_subject " hello") = Some (u "Re: hello") /\
   composed_subject (L := cpython) (with_subject " hello")
     <> Some (spec_subject (L := cpython) (Some (u " hello")))) /\
  (header_value (L := cpython) (u "subject") (payload_headers (with_subject ""))
     = Some [] /\
   spec_subject (L := cpython) (Some []) = u "Re: " /\
   composed_subject (L := cpython) (with_subject "") = Some (u "Re: your email") /\
   composed_subject (L := cpython) (with_subject "")
     <> Some (spec_subject (L := cpython) (Some []))).
Proof.
  split; repeat (split; [reflexivity|]); vm_compute; discriminate.
Qed.

(** ** The draft store: [update_draft_status] *)

Section DraftStore.

Lemma filter_length_pos {A} (f : A -> bool) (l : list A) :
  Nat.ltb 0 (length (List.filter f l)) = true <-> exists x, In x l /\ f x = true.
Proof.
  rewrite Nat.ltb_lt. split.
  - intros H. destruct (List.filter f l) as [|x t] eqn:Hf; [simpl in H; lia|].
    exists x. apply filter_In. rewrite Hf. now left.
  - intros (x & Hin & Hx).
    assert (Hx' : In x (List.filter f l)) by (apply filter_In; auto).
    destruct (List.filter f l); [destruct Hx' | simpl; lia].
Qed.

Lemma Forall2_map_self {A} (R : A -> A -> Prop) (f : A -> A) (l : list A) :
  (forall x, R x (f x)) -> Forall2 R l (map f l).
Proof. intros H. induction l; simpl; constructor; auto. Qed.

(** [cursor.rowcount > 0] says that some row has the id. *)
Lemma rowcount_pos db_id db :
  Nat.ltb 0 (length (List.filter (fun r => (row_id r =? db_id)%Z) (rows db))) = true
  <-> exists r, In r (rows db) /\ row_id r = db_id.
Proof.
  rewrite filter_length_pos.
  split; intros (r & Hin & Hr); exists r; split; auto; now apply Z.eqb_eq.
Qed.

End DraftStore.

(** C1, as amended.  The status update is applied to the record with the
    given id whatever its current status: the store has no guard on
    [pending] and no failure for a finalized record.  The matched record
    takes the new status and the new [updated_at], and the new text when a
    non-empty one is supplied; its other fields and all other records are
    unchanged.  The boolean result is true if and only if a record with
    the given id exists. *)
Theorem update_draft_status_any_status (db : DB) (now db_id : Z)
    (new_status : str) (updated_text : option str) :
  let result := update_draft_status db now db_id new_status updated_text in
  (fst result = true <-> exists r, In r (rows db) /\ row_id r = db_id) /\
  Forall2
    (fun r r' =>
       if (row_id r =? db_id)%Z then
         status r' = new_status /\ updated_at r' = now /\
         reply_text r' =
           (if truthy_opt updated_text then default [] updated_text
            else reply_text r) /\
         row_id r' = row_id r /\ message_id r' = message_id r /\
         draft_id r' = draft_id r /\ created_at r' = created_at r
       else r' = r)
    (rows db) (rows (snd result)).
Proof.
  unfold update_draft_status.
  destruct (truthy_opt updated_text) eqn:Ht; simpl.
  - split; [apply rowcount_pos|].
    apply Forall2_map_self. intros r.
    destruct (row_id r =? db_id)%Z eqn:He; rewrite ?He; simpl; auto 10.
  - split; [apply rowcount_pos|].
    apply Forall2_map_self. intros r.
    destruct (row_id r =? db_id)%Z eqn:He; rewrite ?He; simpl; auto 10.
Qed.

(** A rejected record is updated like any other: the call reports
    success and the record becomes [sent_with_edit] with a new text. *)
Lemma update_draft_status_alters_finalized :
  In rejected_row (rows reviewed_db) /\
  row_id rejected_row = 1%Z /\
  is_terminal (status rejected_row) = true /\
  fst (update_draft_status reviewed_db 40 1 SENT_WITH_EDIT (Some (u "Changed."))) = true /\
  get_draft (snd (update_draft_status reviewed_db 40 1 SENT_WITH_EDIT
                    (Some (u "Changed.")))) 1
    = Some {| row_id := 1; message_id := u "m1"; draft_id := u "draft-m1";
              reply_text := u "Changed."; status := SENT_WITH_EDIT;
              created_at := 10; updated_at := 40 |} /\
  option_map status
    (get_draft (snd (update_draft_status reviewed_db 40 1 SENT_WITH_EDIT
                       (Some (u "Changed.")))) 1)
    <> Some (status rejected_row).
Proof.
  split; [now left|]. repeat (split; [reflexivity|]).
  vm_compute. discriminate.
Qed.

(** C10.  A status update whose new text is the empty string behaves
    exactly like one without a new text: only [status] and [updated_at] of
    the matched record change, and no [reply_text] in the table changes. *)
Theorem update_draft_status_empty_text (db : DB) (now db_id : Z)
    (new_status : str) :
  update_draft_status db now db_id new_status (Some [])
    = update_draft_status db now db_id new_status None /\
  Forall2
    (fun r r' =>
       reply_text r' = reply_text r /\ row_id r' = row_id r /\
       message_id r' = message_id r /\ draft_id r' = draft_id r /\
       created_at r' = created_at r /\
       if (row_id r =? db_id)%Z
       then status r' = new_status /\ updated_at r' = now
       else r' = r)
    (rows db)
    (rows (snd (update_draft_status db now db_id new_status (Some [])))).
Proof.
  split; [reflexivity|].
  unfold update_draft_status. simpl.
  apply Forall2_map_self. intros r.
  destruct (row_id r =? db_id)%Z; simpl; auto 10.
Qed.

(** ** Reply generation: [LLMService.draft_reply] *)

(** C8.  The wrapper can propagate a failure.  When the generation request
    fails, the handler prints a line that holds an arrow (U+2192) and the
    text of the error before it returns the canned reply.  On a standard
    output whose encoding lacks the arrow, Latin-1 here, that [print]
    raises [UnicodeEncodeError] inside the handler, and [draft_reply]
    raises it in place of returning the canned reply: the message is given
    up because generation failed, with no draft and no record.  On a UTF-8
    standard output the same request returns the canned reply and the
    message gets its draft. *)
Theorem draft_reply_propagates_encode_error :
  strip_quotes (L := cpython) (plain_message [from_alice] "ZG93bg") = Ok (u "down") /\
  chat_completion_create (OpenAI := generator) (model jack) (system_prompt jack)
    (u "down") outage
    = (Raise (OtherError (u "service unavailable")), outage) /\
  draft_reply (C := latin1) (AI := generator) jack (u "down") (start outage)
    = (Raise UnicodeEncodeError, start outage) /\
  run_one_on latin1 (Some (u "m4")) (start outage)
    = (Raise UnicodeEncodeError, start outage) /\
  draft_reply (C := utf8) (AI := generator) jack (u "down") (start outage)
    = (Ok CANNED_REPLY,
       {| world := outage; database := empty_db;
          stdout := [OpenAIError (OtherError (u "service unavailable"))] |}) /\
  fst (run_one_on utf8 (Some (u "m4")) (start outage)) = Ok tt /\
  map reply_text (rows (database (snd (run_one_on utf8 (Some (u "m4")) (start outage)))))
    = [CANNED_REPLY].
Proof. vm_compute. repeat split. Qed.

(** ** The poll cycle: [SchedulerService.poll_inbox] *)

Section EffFacts.
Context {S : Type}.

Lemma ebind_Ok_inv {A B} (m : eff S A) (k : A -> eff S B) s b s' :
  ebind m k s = (Ok b, s') ->
  exists a s1, m s = (Ok a, s1) /\ k a s1 = (Ok b, s').
Proof.
  unfold ebind. destruct (m s) as [[a|e] s1]; [eauto | discriminate].
Qed.



End EffFacts.

Section RowsOnlyGrow.
Context {C : Console} {W : Type}.




Lemma call_database {A} (m : eff W A) s : database (snd (call m s)) = database s.
Proof. unfold call. now destruct (m (world s)). Qed.


(** Printing, whether it succeeds or not, leaves the table alone. *)
Lemma print_database l (s : Sys W) : database (snd (print l s)) = database s.
Proof. unfold print. now destruct (can_write (line_text l)). Qed.

(** A line that was printed is the last line of standard output. *)
Lemma print_Ok_inv l (s s' : Sys W) :
  print l s = (Ok tt, s') ->
  can_write (line_text l) = true /\
  s' = {| world := world s; database := database s; stdout := stdout s ++ [l] |}.
Proof.
  unfold print. destruct (can_write (line_text l)); [|discriminate].
  now intros [= <-].
Qed.




End RowsOnlyGrow.

Section PollCycle.
Context {L : PyLib} {C : Console} {W : Type} {G : GmailAPI W} {AI : OpenAI W}.







End PollCycle.

(** C2.  A failure while one message is processed can abort the batch.
    Of three unread messages the second has no [From] header, so its reply
    cannot be composed; the text of that error holds a dash (U+2013).  On
    a standard output whose encoding lacks the dash, Latin-1 here, the
    [print] of the handler of the loop raises [UnicodeEncodeError]: the
    loop ends, the cycle logs an error of the job, and the third message,
    which is processed without failure when it is reached, is neither
    processed nor recorded. *)
Theorem poll_inbox_aborts_batch :
  let after_m1 := snd (run_loop_on latin1 [unread_ref "m1"] (start three_unread)) in
  let s := snd (run_cycle latin1 (start three_unread)) in
  fst (run_one_on latin1 (Some (u "m2")) after_m1) = Raise InvalidOriginal /\
  fst (run_one_on latin1 (Some (u "m3")) after_m1) = Ok tt /\
  map message_id (rows (database s)) = [u "m1"] /\
  unread (world s) = [u "m2"; u "m3"] /\
  stdout s = [PollingInbox 100; FoundUnread 3;
              ProcessedLine (Some (u "m1")) (Some (u "draft-m1"));
              ErrorInJob UnicodeEncodeError].
Proof. vm_compute. repeat split. Qed.

(** The same cycle on a UTF-8 standard output: records for the first and
    the third message, the second message still unread, three lines of
    outcome. *)
Example poll_inbox_three_unread :
  let s := snd (run_cycle utf8 (start three_unread)) in
  map message_id (rows (database s)) = [u "m1"; u "m3"] /\
  map status (rows (database s)) = [PENDING; PENDING] /\
  unread (world s) = [u "m2"] /\
  stdout s = [PollingInbox 100; FoundUnread 3;
              ProcessedLine (Some (u "m1")) (Some (u "draft-m1"));
              ErrorProcessing (Some (u "m2")) InvalidOriginal;
              ProcessedLine (Some (u "m3")) (Some (u "draft-m3"))].
Proof. vm_compute. repeat split. Qed.

(* ===================================================================== *)
(** * Further properties of the code *)
(* ===================================================================== *)

(** ** The draft store as a keyed table *)

Section RepoFacts.


Lemma find_map_keep {A} (f : A -> bool) (g : A -> A) (l : list A) :
  (forall x, f (g x) = f x) ->
  List.find f (map g l) = option_map g (List.find f l).
Proof.
  intros Hfg. induction l as [|a l IH]; simpl; [reflexivity|].
  rewrite Hfg. now destruct (f a).
Qed.

Lemma find_filter_other {A} (f p : A -> bool) (l : list A) :
  (forall x, f x = true -> p x = true) ->
  List.find f (List.filter p l) = List.find f l.
Proof.
  intros Hfp. induction l as [|a l IH]; simpl; [reflexivity|].
  destruct (p a) eqn:Hp; simpl.
  - now destruct (f a).
  - destruct (f a) eqn:Hf; [|exact IH]. apply Hfp in Hf. congruence.
Qed.

Lemma find_none_iff {A} (f : A -> bool) (l : list A) :
  List.find f l = None <-> forall x, In x l -> f x = false.
Proof.
  split; [apply find_none|].
  induction l as [|a l IH]; simpl; intros H; [reflexivity|].
  rewrite (H a) by now left. apply IH. intros x Hx. apply H. now right.
Qed.

Lemma get_draft_None db j :
  get_draft db j = None <-> forall r, In r (rows db) -> row_id r <> j.
Proof.
  unfold get_draft. rewrite find_none_iff. split; intros H r Hin.
  - apply Z.eqb_neq. now apply H.
  - apply Z.eqb_neq. now apply H.
Qed.

Lemma NoDup_map_filter {A B} (f : A -> B) (p : A -> bool) (l : list A) :
  List.NoDup (map f l) -> List.NoDup (map f (List.filter p l)).
Proof.
  induction l as [|a l IH]; simpl; intros H; [constructor|].
  inversion H as [|? ? Hnotin Hnd]; subst.
  destruct (p a); simpl; auto. constructor; auto.
  intros Hin. apply Hnotin. apply in_map_iff in Hin as (x & Hx & Hin).
  apply filter_In in Hin as [Hin _]. apply in_map_iff. eauto.
Qed.

Lemma set_status_row_id st now r : row_id (set_status st now r) = row_id r.
Proof. reflexivity. Qed.

Lemma map_row_id_update (f : Draft -> Draft) db_id l :
  (forall r, row_id (f r) = row_id r) ->
  map row_id (map (fun r => if (row_id r =? db_id)%Z then f r else r) l)
  = map row_id l.
Proof.
  intros Hf. rewrite map_map. apply map_ext. intros r.
  destruct (row_id r =? db_id)%Z; auto.
Qed.

Lemma update_rows db now db_id st txt :
  exists f, (forall r, row_id (f r) = row_id r) /\
    snd (update_draft_status db now db_id st txt)
    = {| rows := map (fun r => if (row_id r =? db_id)%Z then f r else r) (rows db);
         autoinc := autoinc db |}.
Proof.
  unfold update_draft_status. destruct (truthy_opt txt); simpl.
  - exists (set_status_text st (default [] txt) now). split; reflexivity.
  - exists (set_status st now). split; reflexivity.
Qed.

End RepoFacts.


Lemma reviewed_db_wf : Repo.db_wf Examples.reviewed_db.
Proof.
  split.
  - simpl. repeat constructor; simpl; intuition discriminate.
  - repeat constructor; simpl; lia.
Defined.


(** The table stays keyed: from the empty table, [save_draft],
    [update_draft_status] and [delete_draft] keep the ids distinct and no
    larger than the AUTOINCREMENT counter. *)
Theorem db_wf_invariant :
  Repo.db_wf empty_db /\
  (forall db t1 t2 mid did text st,
     Repo.db_wf db -> Repo.db_wf (snd (save_draft db t1 t2 mid did text st))) /\
  (forall db now db_id st txt,
     Repo.db_wf db -> Repo.db_wf (snd (update_draft_status db now db_id st txt))) /\
  (forall db db_id,
     Repo.db_wf db -> Repo.db_wf (snd (Repo.delete_draft db db_id))).
Proof.
  split; [split; constructor|]. split; [|split].
  - intros db t1 t2 [mid|] [did|] text st Hwf; simpl; auto.
    destruct Hwf as [Hnd Hle]. split; simpl.
    + rewrite map_app. simpl. apply List.NoDup_app. repeat split; auto.
      * repeat constructor. intros [].
      * intros x Hx [<-|[]]. apply in_map_iff in Hx as (r & Hr & Hin).
        rewrite List.Forall_forall in Hle. specialize (Hle r Hin). lia.
    + apply List.Forall_app. split.
      * eapply List.Forall_impl; [|exact Hle]. simpl. intros; lia.
      * repeat constructor. simpl. lia.
  - intros db now db_id st txt [Hnd Hle].
    destruct (update_rows db now db_id st txt) as (f & Hf & ->).
    split; simpl.
    + now rewrite map_row_id_update.
    + rewrite List.Forall_forall in *. intros r Hin.
      apply in_map_iff in Hin as (r0 & <- & Hin).
      destruct (row_id r0 =? db_id)%Z; rewrite ?Hf; auto.
  - intros db db_id [Hnd Hle]. split; simpl.
    + now apply NoDup_map_filter.
    + rewrite List.Forall_forall in *. intros r Hin.
      apply filter_In in Hin as [Hin _]. auto.
Qed.

Lemma db_wf_invariant_witness :
  Repo.db_wf Examples.reviewed_db /\
  Repo.db_wf (snd (Repo.delete_draft Examples.reviewed_db 1%Z)).
Proof.
  split; [exact reviewed_db_wf|].
  exact (proj2 (proj2 (proj2 db_wf_invariant)) Examples.reviewed_db 1%Z reviewed_db_wf).
Defined.

Section RepoAbsent.

Lemma map_update_absent (f : Draft -> Draft) db_id (l : list Draft) :
  (forall r, In r l -> row_id r <> db_id) ->
  map (fun r => if (row_id r =? db_id)%Z then f r else r) l = l.
Proof.
  induction l as [|r l IH]; simpl; intros Hno; [reflexivity|].
  rewrite IH by (intros x Hx; apply Hno; now right).
  destruct (row_id r =? db_id)%Z eqn:He; [|reflexivity].
  apply Z.eqb_eq in He. destruct (Hno r (or_introl eq_refl) He).
Qed.

Lemma filter_id_absent db_id (l : list Draft) :
  (forall r, In r l -> row_id r <> db_id) ->
  List.filter (fun r => (row_id r =? db_id)%Z) l = [].
Proof.
  induction l as [|r l IH]; simpl; intros Hno; [reflexivity|].
  destruct (row_id r =? db_id)%Z eqn:He.
  - apply Z.eqb_eq in He. destruct (Hno r (or_introl eq_refl) He).
  - apply IH. intros x Hx. apply Hno. now right.
Qed.

Lemma find_update_other (f : Draft -> Draft) db_id j (l : list Draft) :
  (forall r, row_id (f r) = row_id r) -> j <> db_id ->
  List.find (fun r => (row_id r =? j)%Z)
    (map (fun r => if (row_id r =? db_id)%Z then f r else r) l)
  = List.find (fun r => (row_id r =? j)%Z) l.
Proof.
  intros Hf Hj. induction l as [|r l IH]; simpl; [reflexivity|].
  destruct (row_id r =? db_id)%Z eqn:He.
  - rewrite Hf. apply Z.eqb_eq in He.
    destruct (row_id r =? j)%Z eqn:Hrj; [apply Z.eqb_eq in Hrj; congruence|].
    exact IH.
  - destruct (row_id r =? j)%Z; [reflexivity | exact IH].
Qed.

End RepoAbsent.

(** [update_draft_status] touches the record with the given id only: every
    other id reads as before.  When no record has the id the call reports
    failure and leaves the table as it was.  An id that does not fit in 64
    bits makes the call raise [OverflowError], with the table as it was. *)
Theorem update_draft_status_frame (db : DB) (now db_id : Z) (new_status : str)
    (updated_text : option str) :
  let done := Store.update_draft_status db now db_id new_status updated_text in
  (forall j, j <> db_id -> Store.get_draft (snd done) j = Store.get_draft db j) /\
  (Store.fits_int64 db_id = true ->
   (forall r, In r (rows db) -> row_id r <> db_id) ->
   done = (Ok false, db)) /\
  (Store.fits_int64 db_id = false -> done = (Raise OverflowError, db)).
Proof.
  cbv zeta. unfold Store.update_draft_status.
  destruct (Store.fits_int64 db_id) eqn:Hfit.
  - split; [|split; [|discriminate]].
    + intros j Hj.
      destruct (update_rows db now db_id new_status updated_text) as (f & Hf & Hup).
      destruct (update_draft_status db now db_id new_status updated_text)
        as [success db'].
      simpl in *. subst db'. unfold Store.get_draft, get_draft. simpl.
      now rewrite find_update_other.
    + intros _ Hno. unfold update_draft_status, update_where_id.
      rewrite (filter_id_absent _ _ Hno), !(map_update_absent _ _ _ Hno).
      destruct db. now destruct (truthy_opt updated_text).
  - split; [|split; [discriminate|]]; reflexivity.
Qed.

Lemma update_draft_status_frame_witness :
  (Store.fits_int64 7 = true /\
   (forall r, In r (rows Examples.reviewed_db) -> row_id r <> 7%Z) /\
   Store.update_draft_status Examples.reviewed_db 40 7 REJECTED None
   = (Ok false, Examples.reviewed_db)) /\
  (Store.fits_int64 (2 ^ 63) = false /\
   Store.update_draft_status Examples.reviewed_db 40 (2 ^ 63) REJECTED None
   = (Raise OverflowError, Examples.reviewed_db)).
Proof.
  assert (H : forall r, In r (rows Examples.reviewed_db) -> row_id r <> 7%Z).
  { intros r [<-|[<-|[]]]; simpl; lia. }
  split.
  - split; [reflexivity|]. split; [exact H|].
    exact (proj1 (proj2 (update_draft_status_frame Examples.reviewed_db 40 7
                           REJECTED None)) eq_refl H).
  - split; [reflexivity|].
    exact (proj2 (proj2 (update_draft_status_frame Examples.reviewed_db 40 (2 ^ 63)
                           REJECTED None)) eq_refl).
Defined.

(** [delete_draft] reports whether a record had the id; afterwards the id
    reads as absent and deleting it again reports failure.  An id that
    does not fit in 64 bits makes the call raise [OverflowError], with the
    table as it was.  In every case the other ids read as before and the
    AUTOINCREMENT counter is unchanged. *)
Theorem delete_draft_spec (db : DB) (db_id : Z) :
  let deleted := Store.delete_draft db db_id in
  (Store.fits_int64 db_id = true ->
   (fst deleted = Ok true <-> exists r, In r (rows db) /\ row_id r = db_id) /\
   (fst deleted = Ok false <-> forall r, In r (rows db) -> row_id r <> db_id) /\
   Store.get_draft (snd deleted) db_id = Ok None /\
   fst (Store.delete_draft (snd deleted) db_id) = Ok false) /\
  (Store.fits_int64 db_id = false -> deleted = (Raise OverflowError, db)) /\
  (forall j, j <> db_id -> Store.get_draft (snd deleted) j = Store.get_draft db j) /\
  autoinc (snd deleted) = autoinc db.
Proof.
  cbv zeta. unfold Store.delete_draft, Store.get_draft.
  destruct (Store.fits_int64 db_id) eqn:Hfit;
    [|split; [discriminate|]; repeat split; reflexivity].
  unfold Repo.delete_draft. cbn [fst snd rows autoinc]. rewrite ?Hfit.
  assert (Hgone : forall r,
            In r (List.filter (fun r => negb (row_id r =? db_id)%Z) (rows db)) ->
            row_id r <> db_id).
  { intros r Hin. apply filter_In in Hin as [_ Hr].
    apply negb_true_iff, Z.eqb_neq in Hr. exact Hr. }
  pose proof (rowcount_pos db_id db) as Hcount.
  split; [intros _|split; [discriminate|split]].
  - split; [|split; [|split]].
    + rewrite <- Hcount. split; [now intros [= ->] | now intros ->].
    + split.
      * intros [= Hf] r Hin Hr.
        assert (Ht : Nat.ltb 0 (length (List.filter (fun r => (row_id r =? db_id)%Z)
                                          (rows db))) = true)
          by (apply Hcount; eauto).
        congruence.
      * intros Hno. f_equal. apply not_true_is_false. intros Ht.
        apply Hcount in Ht as (r & Hin & Hr). exact (Hno r Hin Hr).
    + f_equal. apply get_draft_None. exact Hgone.
    + f_equal. apply not_true_is_false. intros H.
      apply (rowcount_pos db_id
               {| rows := List.filter (fun r => negb (row_id r =? db_id)%Z) (rows db);
                  autoinc := autoinc db |}) in H as (r & Hin & Hr).
      exact (Hgone r Hin Hr).
  - intros j Hj. destruct (Store.fits_int64 j); [|reflexivity]. f_equal.
    unfold get_draft. simpl. apply find_filter_other.
    intros r Hr. apply Z.eqb_eq in Hr. apply negb_true_iff, Z.eqb_neq. congruence.
  - reflexivity.
Qed.

Lemma delete_draft_spec_witness :
  (Store.fits_int64 2 = true /\
   Store.get_draft (snd (Store.delete_draft Examples.reviewed_db 2)) 2 = Ok None) /\
  (Store.fits_int64 (- 2 ^ 63 - 1) = false /\
   Store.delete_draft Examples.reviewed_db (- 2 ^ 63 - 1)
   = (Raise OverflowError, Examples.reviewed_db)).
Proof.
  split.
  - split; [reflexivity|].
    exact (proj1 (proj2 (proj2 (proj1 (delete_draft_spec Examples.reviewed_db 2)
                                  eq_refl)))).
  - split; [reflexivity|].
    exact (proj1 (proj2 (delete_draft_spec Examples.reviewed_db (- 2 ^ 63 - 1)))
             eq_refl).
Defined.



(** ** The listings of the draft store *)

Section RepoQueries.

Lemma insert_desc_perm r l : Permutation (Repo.insert_desc r l) (r :: l).
Proof.
  induction l as [|x l IH]; simpl; [reflexivity|].
  destruct (created_at x <=? created_at r)%Z; [reflexivity|].
  rewrite IH. apply perm_swap.
Qed.

Lemma order_perm l : Permutation (Repo.order_by_created_desc l) l.
Proof.
  induction l as [|r l IH]; simpl; [constructor|].
  rewrite insert_desc_perm. now constructor.
Qed.

Lemma insert_desc_sorted r l :
  Repo.newest_first l -> Repo.newest_first (Repo.insert_desc r l).
Proof.
  unfold Repo.newest_first.
  induction l as [|x l IH]; simpl; intros Hs.
  - repeat constructor.
  - apply StronglySorted_inv in Hs as [Hl Hx].
    destruct (created_at x <=? created_at r)%Z eqn:Hc.
    + apply Z.leb_le in Hc. constructor; [now constructor|].
      constructor; [exact Hc|].
      eapply List.Forall_impl; [|exact Hx]. simpl. intros a Ha. lia.
    + apply Z.leb_gt in Hc. constructor; [auto|].
      rewrite List.Forall_forall in *. intros a Ha.
      apply (Permutation_in _ (insert_desc_perm r l)) in Ha as [<-|Ha].
      * lia.
      * now apply Hx.
Qed.

Lemma order_sorted l : Repo.newest_first (Repo.order_by_created_desc l).
Proof.
  induction l as [|r l IH]; simpl; [constructor | now apply insert_desc_sorted].
Qed.


Lemma get_pending_drafts_In db r :
  In r (Repo.get_pending_drafts db) <-> In r (rows db) /\ status r = PENDING.
Proof.
  unfold Repo.get_pending_drafts. split.
  - intros Hin. apply (Permutation_in _ (order_perm _)) in Hin.
    apply filter_In in Hin as [Hin Hst]. split; [exact Hin|].
    now apply str_eqb_eq.
  - intros [Hin Hst].
    apply (Permutation_in _ (Permutation_sym (order_perm _))).
    apply filter_In. split; [exact Hin|]. now apply str_eqb_eq.
Qed.

End RepoQueries.

(** [get_pending_drafts] returns exactly the records whose status is
    [pending], each once, the most recently created first. *)
Theorem get_pending_drafts_spec (db : DB) :
  Permutation (Repo.get_pending_drafts db)
    (List.filter (fun r => str_eqb (status r) PENDING) (rows db)) /\
  Repo.newest_first (Repo.get_pending_drafts db) /\
  (forall r, In r (Repo.get_pending_drafts db) <->
             In r (rows db) /\ status r = PENDING).
Proof.
  split; [apply order_perm|]. split; [apply order_sorted|].
  intros r. apply get_pending_drafts_In.
Qed.


(** Once a record is given a status other than [pending], it is out of
    the pending listing, and the listing is otherwise as it was. *)
Theorem update_draft_status_leaves_queue (db : DB) (now db_id : Z)
    (new_status : str) (updated_text : option str) :
  new_status <> PENDING ->
  forall r,
    In r (Repo.get_pending_drafts
            (snd (update_draft_status db now db_id new_status updated_text)))
    <-> In r (Repo.get_pending_drafts db) /\ row_id r <> db_id.
Proof.
  intros Hst r.
  rewrite !get_pending_drafts_In.
  assert (Hrows : exists f, (forall x, status (f x) = new_status) /\
            rows (snd (update_draft_status db now db_id new_status updated_text))
            = map (fun x => if (row_id x =? db_id)%Z then f x else x) (rows db)).
  { unfold update_draft_status. destruct (truthy_opt updated_text); simpl.
    - exists (set_status_text new_status (default [] updated_text) now).
      split; reflexivity.
    - exists (set_status new_status now). split; reflexivity. }
  destruct Hrows as (f & Hf & ->). rewrite in_map_iff. split.
  - intros [(x & Hx & Hin) Hp].
    destruct (row_id x =? db_id)%Z eqn:He.
    + subst r. rewrite Hf in Hp. congruence.
    + subst r. apply Z.eqb_neq in He. auto.
  - intros [[Hin Hp] Hid]. split; [|exact Hp].
    exists r. split; [|exact Hin]. apply Z.eqb_neq in Hid. now rewrite Hid.
Qed.

Lemma update_draft_status_leaves_queue_witness :
  SENT_NO_EDIT <> PENDING /\
  (In Examples.pending_row
     (Repo.get_pending_drafts
        (snd (update_draft_status Examples.reviewed_db 40 1 SENT_NO_EDIT None)))
   <-> In Examples.pending_row (Repo.get_pending_drafts Examples.reviewed_db) /\
       row_id Examples.pending_row <> 1%Z).
Proof.
  assert (H : SENT_NO_EDIT <> PENDING) by discriminate.
  split; [exact H|].
  exact (update_draft_status_leaves_queue Examples.reviewed_db 40 1 SENT_NO_EDIT
           None H Examples.pending_row).
Defined.

(** ** The actions of the review page *)

Section MainFacts.
Context {L : PyLib} {W : Type} {G : GmailAPI W} {D : Gmail.DraftsAPI W}.

Lemma get_draft_update_same db now db_id st txt d :
  get_draft db db_id = Some d ->
  get_draft (snd (update_draft_status db now db_id st txt)) db_id
  = Some (if truthy_opt txt then set_status_text st (default [] txt) now d
          else set_status st now d).
Proof.
  intros Hd. unfold update_draft_status, get_draft in *.
  destruct (find_some _ _ Hd) as [_ He].
  destruct (truthy_opt txt); simpl;
    (rewrite find_map_keep;
     [ rewrite Hd; simpl; now rewrite He
     | intros x; destruct (row_id x =? db_id)%Z eqn:E; simpl; now rewrite ?E ]).
Qed.

Lemma datetime_now_value (s : Sys W) :
  datetime_now s
  = (Ok (fst (now (world s))),
     {| world := snd (now (world s)); database := database s; stdout := stdout s |}).
Proof. unfold datetime_now, call. now destruct (now (world s)). Qed.

Lemma db_update_draft_status_value db_id st txt (s : Sys W) :
  Main.db_update_draft_status db_id st txt s
  = (fst (Store.update_draft_status (database s) (fst (now (world s))) db_id st txt),
     {| world := snd (now (world s));
        database := snd (Store.update_draft_status (database s) (fst (now (world s)))
                           db_id st txt);
        stdout := stdout s |}).
Proof.
  unfold Main.db_update_draft_status, ebind. rewrite datetime_now_value. simpl.
  now destruct (Store.update_draft_status _ _ _ _ _).
Qed.

Lemma store_update_fits db now db_id st txt :
  Store.fits_int64 db_id = true ->
  Store.update_draft_status db now db_id st txt
  = (Ok (fst (update_draft_status db now db_id st txt)),
     snd (update_draft_status db now db_id st txt)).
Proof.
  unfold Store.update_draft_status. intros ->.
  now destruct (update_draft_status db now db_id st txt).
Qed.

Lemma store_update_overflow db now db_id st txt :
  Store.fits_int64 db_id = false ->
  Store.update_draft_status db now db_id st txt = (Raise OverflowError, db).
Proof. unfold Store.update_draft_status. now intros ->. Qed.

Lemma store_update_other db now db_id st txt j :
  j <> db_id ->
  Store.get_draft (snd (Store.update_draft_status db now db_id st txt)) j
  = Store.get_draft db j.
Proof.
  intros Hj. destruct (Store.fits_int64 db_id) eqn:Hfit.
  - rewrite store_update_fits by exact Hfit. cbn [snd].
    destruct (update_rows db now db_id st txt) as (f & Hf & ->).
    unfold Store.get_draft, get_draft. simpl. now rewrite find_update_other.
  - now rewrite store_update_overflow.
Qed.

Lemma update_draft_database draft_id text (s : Sys W) :
  database (snd (Gmail.update_draft draft_id text s)) = database s.
Proof.
  unfold Gmail.update_draft, ebind.
  pose proof (call_database (Gmail.drafts_get draft_id) s) as H1.
  destruct (call (Gmail.drafts_get draft_id) s) as [[headers|e] s1]; simpl in *; auto.
  unfold lift.
  destruct (let! mime := Gmail.edited_message text headers in mime_raw mime)
    as [raw|e]; simpl; auto.
  now rewrite call_database.
Qed.

(** Reading the record is the first step of [send] and of [send_edit]. *)
Lemma after_db_get_draft db_id (k : option Draft -> Main.handler W) (s : Sys W) :
  Main.after (Main.db_get_draft db_id) k s
  = if Store.fits_int64 db_id then k (get_draft (database s) db_id) s
    else (Main.Failed (Main.Uncaught OverflowError), s).
Proof.
  unfold Main.after, Main.db_get_draft, Store.get_draft.
  now destruct (Store.fits_int64 db_id).
Qed.

End MainFacts.

(** Rejecting a draft answers 404 exactly when no record has the id,
    provided the id fits in 64 bits; an id that does not makes the request
    fail with the [OverflowError] of the database call.  When a record has
    the id it becomes [rejected], whatever its status was.  In every case
    nothing but the clock is asked of the outside world (the draft at the
    provider is not deleted) and the other records are as before. *)
Theorem reject_spec (W : Type) (G : GmailAPI W) (db_id : Z) (s : Sys W) :
  let done := Main.reject db_id s in
  (Store.fits_int64 db_id = false ->
   fst done = Main.Failed (Main.Uncaught OverflowError) /\
   database (snd done) = database s) /\
  (Store.fits_int64 db_id = true ->
   (fst done = Main.Failed (Main.HTTPException 404 (u "Draft not found"))
    <-> forall r, In r (rows (database s)) -> row_id r <> db_id) /\
   (forall d, get_draft (database s) db_id = Some d ->
      fst done = Main.Responded {| Main.location := u "/drafts?msg=rejected";
                                   Main.redirect_status := 303 |} /\
      get_draft (database (snd done)) db_id
      = Some (set_status REJECTED (fst (now (world s))) d))) /\
  (forall j, j <> db_id ->
     Store.get_draft (database (snd done)) j = Store.get_draft (database s) j) /\
  world (snd done) = snd (now (world s)) /\
  stdout (snd done) = stdout s.
Proof.
  cbv zeta. unfold Main.reject, Main.after.
  rewrite db_update_draft_status_value.
  set (t := fst (now (world s))).
  pose proof (store_update_other (database s) t db_id REJECTED None) as Hother.
  destruct (Store.fits_int64 db_id) eqn:Hfit.
  - rewrite store_update_fits in * by exact Hfit. cbn [fst snd] in *.
    remember (update_draft_status (database s) t db_id REJECTED None) as up eqn:Hup.
    assert (Hfound : fst up = true <->
              exists r, In r (rows (database s)) /\ row_id r = db_id).
    { subst up. apply rowcount_pos. }
    assert (Hsame : forall d, get_draft (database s) db_id = Some d ->
              get_draft (snd up) db_id = Some (set_status REJECTED t d)).
    { intros d Hd. subst up. apply (get_draft_update_same _ t _ REJECTED None _ Hd). }
    clear Hup. destruct up as [[|] db']; simpl in *.
    + destruct (proj1 Hfound eq_refl) as (r & Hin & Hr).
      split; [discriminate|]. split; [|split; [|split]]; auto.
      intros _. split; auto.
      split; [discriminate|]. intros H. destruct (H r Hin Hr).
    + split; [discriminate|]. split; [|split; [|split]]; auto.
      intros _. split.
      * split; auto. intros _ r Hin Hr.
        assert (false = true) by (apply Hfound; eauto). discriminate.
      * intros d Hd. exfalso.
        apply find_some in Hd as [Hin Hr]. apply Z.eqb_eq in Hr.
        assert (false = true) by (apply Hfound; eauto). discriminate.
  - rewrite store_update_overflow in * by exact Hfit. cbn [fst snd] in *.
    split; [auto|]. split; [discriminate|]. split; [|split]; auto.
Qed.

Lemma reject_spec_witness :
  (Store.fits_int64 2 = true /\
   get_draft (database Scenarios.reviewing) 2 = Some Examples.pending_row /\
   get_draft (database (snd (Main.reject (G := Examples.mailbox) 2
                               Scenarios.reviewing))) 2
   = Some (set_status REJECTED 100 Examples.pending_row)) /\
  (Store.fits_int64 (2 ^ 63) = false /\
   fst (Main.reject (G := Examples.mailbox) (2 ^ 63) Scenarios.reviewing)
   = Main.Failed (Main.Uncaught OverflowError)).
Proof.
  split.
  - split; [reflexivity|]. split; [reflexivity|].
    exact (proj2 (proj2 (proj1 (proj2 (reject_spec _ Examples.mailbox 2
             Scenarios.reviewing)) eq_refl) _ eq_refl)).
  - split; [reflexivity|].
    exact (proj1 (proj1 (reject_spec _ Examples.mailbox (2 ^ 63)
             Scenarios.reviewing) eq_refl)).
Defined.

(** Sending a draft marks the record [sent_no_edit] only after the
    provider has sent the draft: when the provider call raises, the
    request fails and the table is unchanged.  When no record has the id,
    the request fails before anything is asked of the provider: with a
    [TypeError] (not with a 404) for an id that fits in 64 bits, and with
    the [OverflowError] of the database call for one that does not.  The
    current status of the record is not looked at. *)
Theorem send_spec (W : Type) (G : GmailAPI W) (D : Gmail.DraftsAPI W)
    (db_id : Z) (s : Sys W) :
  let done := Main.send db_id s in
  (Store.fits_int64 db_id = false ->
   done = (Main.Failed (Main.Uncaught OverflowError), s)) /\
  (Store.fits_int64 db_id = true -> get_draft (database s) db_id = None ->
   done = (Main.Failed Main.TypeError, s)) /\
  (forall d e w',
     Store.fits_int64 db_id = true ->
     get_draft (database s) db_id = Some d ->
     Gmail.drafts_send (draft_id d) (world s) = (Raise e, w') ->
     fst done = Main.Failed (Main.Uncaught e) /\
     database (snd done) = database s) /\
  (forall d w',
     Store.fits_int64 db_id = true ->
     get_draft (database s) db_id = Some d ->
     Gmail.drafts_send (draft_id d) (world s) = (Ok tt, w') ->
     fst done = Main.Responded {| Main.location := u "/drafts?msg=sent";
                                  Main.redirect_status := 303 |} /\
     get_draft (database (snd done)) db_id
     = Some (set_status SENT_NO_EDIT (fst (now w')) d)).
Proof.
  cbv zeta. unfold Main.send. rewrite after_db_get_draft.
  split; [|split; [|split]].
  - now intros ->.
  - now intros -> ->.
  - intros d e w' -> -> Hsend. unfold Main.draft_id_of, Main.after, Gmail.send_draft, call.
    rewrite Hsend. auto.
  - intros d w' Hfit Hd Hsend. rewrite Hfit, Hd. unfold Main.draft_id_of.
    assert (Hval :
      Main.after (Gmail.send_draft (draft_id d)) (fun _ =>
        Main.after (Main.db_update_draft_status db_id SENT_NO_EDIT None) (fun _ =>
          Main.redirect "/drafts?msg=sent")) s
      = (Main.Responded {| Main.location := u "/drafts?msg=sent";
                           Main.redirect_status := 303 |},
         {| world := snd (now w');
            database := snd (update_draft_status (database s) (fst (now w'))
                               db_id SENT_NO_EDIT None);
            stdout := stdout s |})).
    { unfold Main.after at 1. unfold Gmail.send_draft, call. rewrite Hsend.
      unfold Main.after. rewrite db_update_draft_status_value.
      now rewrite store_update_fits by exact Hfit. }
    rewrite Hval. simpl. split; [reflexivity|].
    apply (get_draft_update_same _ _ _ SENT_NO_EDIT None _ Hd).
Qed.

Lemma send_spec_witness :
  (Store.fits_int64 3 = true /\
   get_draft (database Scenarios.orphaned) 3 = Some Scenarios.orphan_row /\
   Gmail.drafts_send (DraftsAPI := Scenarios.drafts_box)
     (draft_id Scenarios.orphan_row) (world Scenarios.orphaned)
   = (Raise (HttpError (u "404")), Examples.three_unread) /\
   database (snd (Main.send (G := Examples.mailbox) (D := Scenarios.drafts_box)
                    3 Scenarios.orphaned))
   = database Scenarios.orphaned) /\
  (Store.fits_int64 9 = true /\
   get_draft (database Scenarios.reviewing) 9 = None /\
   Main.send (G := Examples.mailbox) (D := Scenarios.drafts_box) 9 Scenarios.reviewing
   = (Main.Failed Main.TypeError, Scenarios.reviewing)) /\
  (Store.fits_int64 (2 ^ 63) = false /\
   Main.send (G := Examples.mailbox) (D := Scenarios.drafts_box) (2 ^ 63)
     Scenarios.reviewing
   = (Main.Failed (Main.Uncaught OverflowError), Scenarios.reviewing)) /\
  (Store.fits_int64 2 = true /\
   get_draft (database Scenarios.reviewing) 2 = Some Examples.pending_row /\
   Gmail.drafts_send (DraftsAPI := Scenarios.drafts_box)
     (draft_id Examples.pending_row) (world Scenarios.reviewing)
   = (Ok tt, Examples.three_unread) /\
   get_draft (database (snd (Main.send (G := Examples.mailbox)
                               (D := Scenarios.drafts_box) 2 Scenarios.reviewing))) 2
   = Some (set_status SENT_NO_EDIT 100 Examples.pending_row)).
Proof.
  split; [|split; [|split]].
  - split; [reflexivity|]. split; [reflexivity|]. split; [reflexivity|].
    exact (proj2 (proj1 (proj2 (proj2 (send_spec _ Examples.mailbox
             Scenarios.drafts_box 3 Scenarios.orphaned))) _ _ _
             eq_refl eq_refl eq_refl)).
  - split; [reflexivity|]. split; [reflexivity|].
    exact (proj1 (proj2 (send_spec _ Examples.mailbox Scenarios.drafts_box
             9 Scenarios.reviewing)) eq_refl eq_refl).
  - split; [reflexivity|].
    exact (proj1 (send_spec _ Examples.mailbox Scenarios.drafts_box
             (2 ^ 63) Scenarios.reviewing) eq_refl).
  - split; [reflexivity|]. split; [reflexivity|]. split; [reflexivity|].
    exact (proj2 (proj2 (proj2 (proj2 (send_spec _ Examples.mailbox
             Scenarios.drafts_box 2 Scenarios.reviewing))) _ _
             eq_refl eq_refl eq_refl)).
Defined.

(** Sending an edited draft changes the record only after the provider
    has both taken the new text and sent the draft: when either call
    raises, the request fails and the table is unchanged.  On success the
    record becomes [sent_with_edit] and takes the edited text.  A request
    whose text is empty is refused before anything is read; one whose id
    is unknown fails before anything is asked of the provider, as for
    [send]. *)
Theorem send_edit_spec (L : PyLib) (W : Type) (G : GmailAPI W)
    (D : Gmail.DraftsAPI W) (db_id : Z) (edited_text : str) (s : Sys W) :
  let done := Main.send_edit db_id edited_text s in
  (edited_text = [] -> done = (Main.Failed Main.RequestValidationError, s)) /\
  (edited_text <> [] -> Store.fits_int64 db_id = false ->
   done = (Main.Failed (Main.Uncaught OverflowError), s)) /\
  (edited_text <> [] -> Store.fits_int64 db_id = true ->
   get_draft (database s) db_id = None ->
   done = (Main.Failed Main.TypeError, s)) /\
  (forall d e s1,
     edited_text <> [] -> Store.fits_int64 db_id = true ->
     get_draft (database s) db_id = Some d ->
     Gmail.update_draft (draft_id d) edited_text s = (Raise e, s1) ->
     fst done = Main.Failed (Main.Uncaught e) /\
     database (snd done) = database s) /\
  (forall d ref s1 e w2,
     edited_text <> [] -> Store.fits_int64 db_id = true ->
     get_draft (database s) db_id = Some d ->
     Gmail.update_draft (draft_id d) edited_text s = (Ok ref, s1) ->
     Gmail.drafts_send (draft_id d) (world s1) = (Raise e, w2) ->
     fst done = Main.Failed (Main.Uncaught e) /\
     database (snd done) = database s) /\
  (forall d ref s1 w2,
     edited_text <> [] -> Store.fits_int64 db_id = true ->
     get_draft (database s) db_id = Some d ->
     Gmail.update_draft (draft_id d) edited_text s = (Ok ref, s1) ->
     Gmail.drafts_send (draft_id d) (world s1) = (Ok tt, w2) ->
     fst done = Main.Responded {| Main.location := u "/drafts?msg=sent_edit";
                                  Main.redirect_status := 303 |} /\
     get_draft (database (snd done)) db_id
     = Some (set_status_text SENT_WITH_EDIT edited_text (fst (now w2)) d)).
Proof.
  cbv zeta. unfold Main.send_edit.
  destruct (truthy edited_text) eqn:Ht; cbn [negb].
  2: { destruct edited_text; [|discriminate].
       split; [reflexivity|]. repeat split; intros; congruence. }
  rewrite after_db_get_draft.
  split; [intros ->; discriminate|]. split; [|split; [|split; [|split]]].
  - now intros _ ->.
  - now intros _ -> ->.
  - intros d e s1 _ -> -> Hup.
    pose proof (update_draft_database (draft_id d) edited_text s) as H.
    rewrite Hup in H. simpl in H.
    unfold Main.draft_id_of, Main.after. rewrite Hup. auto.
  - intros d ref s1 e w2 _ -> -> Hup Hsend.
    pose proof (update_draft_database (draft_id d) edited_text s) as H.
    rewrite Hup in H. simpl in H.
    unfold Main.draft_id_of, Main.after, Gmail.send_draft, call.
    rewrite Hup, Hsend. auto.
  - intros d ref s1 w2 _ Hfit Hd Hup Hsend. rewrite Hfit, Hd.
    unfold Main.draft_id_of.
    pose proof (update_draft_database (draft_id d) edited_text s) as H.
    rewrite Hup in H. simpl in H.
    assert (Hval :
      Main.after (Gmail.update_draft (draft_id d) edited_text) (fun _ =>
        Main.after (Gmail.send_draft (draft_id d)) (fun _ =>
          Main.after (Main.db_update_draft_status db_id SENT_WITH_EDIT
                        (Some edited_text)) (fun _ =>
            Main.redirect "/drafts?msg=sent_edit"))) s
      = (Main.Responded {| Main.location := u "/drafts?msg=sent_edit";
                           Main.redirect_status := 303 |},
         {| world := snd (now w2);
            database := snd (update_draft_status (database s) (fst (now w2))
                               db_id SENT_WITH_EDIT (Some edited_text));
            stdout := stdout s1 |})).
    { unfold Main.after at 1. rewrite Hup.
      unfold Main.after at 1. unfold Gmail.send_draft, call. rewrite Hsend.
      unfold Main.after. rewrite db_update_draft_status_value.
      rewrite store_update_fits by exact Hfit. simpl.
      now rewrite H. }
    rewrite Hval. simpl. split; [reflexivity|].
    rewrite (get_draft_update_same _ _ _ SENT_WITH_EDIT (Some edited_text) _ Hd).
    cbn [truthy_opt]. now rewrite Ht.
Qed.

Lemma send_edit_spec_witness :
  (u "Hi." <> [] /\ Store.fits_int64 3 = true /\
   get_draft (database Scenarios.orphaned) 3 = Some Scenarios.orphan_row /\
   database (snd (Main.send_edit (L := cpython) (G := Examples.mailbox)
                    (D := Scenarios.drafts_box) 3 (u "Hi.") Scenarios.orphaned))
   = database Scenarios.orphaned) /\
  (u "Hi." <> [] /\ Store.fits_int64 2 = true /\
   get_draft (database Scenarios.reviewing) 2 = Some Examples.pending_row /\
   get_draft (database (snd (Main.send_edit (L := cpython) (G := Examples.mailbox)
                               (D := Scenarios.drafts_box) 2 (u "Hi.")
                               Scenarios.reviewing))) 2
   = Some (set_status_text SENT_WITH_EDIT (u "Hi.") 100 Examples.pending_row)) /\
  Main.send_edit (L := cpython) (G := Examples.mailbox) (D := Scenarios.drafts_box)
    2 [] Scenarios.reviewing
  = (Main.Failed Main.RequestValidationError, Scenarios.reviewing).
Proof.
  assert (Hne : u "Hi." <> []) by discriminate.
  split; [|split].
  - split; [exact Hne|]. split; [reflexivity|]. split; [reflexivity|].
    refine (proj2 (proj1 (proj2 (proj2 (proj2 (send_edit_spec cpython _
              Examples.mailbox Scenarios.drafts_box 3 (u "Hi.") Scenarios.orphaned))))
              _ (HttpError (u "404")) Scenarios.orphaned Hne eq_refl eq_refl _)).
    reflexivity.
  - split; [exact Hne|]. split; [reflexivity|]. split; [reflexivity|].
    refine (proj2 (proj2 (proj2 (proj2 (proj2 (proj2 (send_edit_spec cpython _
              Examples.mailbox Scenarios.drafts_box 2 (u "Hi.") Scenarios.reviewing)))))
              _ {| dr_id := Some (u "draft-m2") |}
              (snd (Gmail.update_draft (L := cpython) (D := Scenarios.drafts_box)
                      (u "draft-m2") (u "Hi.") Scenarios.reviewing))
              (world (snd (Gmail.update_draft (L := cpython)
                             (D := Scenarios.drafts_box)
                             (u "draft-m2") (u "Hi.") Scenarios.reviewing)))
              Hne eq_refl eq_refl _ _)); reflexivity.
  - exact (proj1 (send_edit_spec cpython _ Examples.mailbox Scenarios.drafts_box
             2 [] Scenarios.reviewing) eq_refl).
Defined.

(** ** More on extraction and composition *)

Section StripFacts.

Lemma rstrip_idem s : rstrip (rstrip s) = rstrip s.
Proof.
  induction s as [|c t IH]; simpl; [reflexivity|].
  destruct (rstrip t) as [|c' t'] eqn:Ht.
  - destruct (isspace c) eqn:Hc; simpl; [reflexivity|]. now rewrite Hc.
  - change (rstrip (c :: c' :: t')) with
      (match rstrip (c' :: t') with
       | [] => if isspace c then [] else [c]
       | x => c :: x
       end).
    now rewrite IH.
Qed.

Lemma rstrip_head (c : N) (t : list N) :
  isspace c = false -> exists t' : list N, rstrip (c :: t) = c :: t'.
Proof.
  intros Hc. simpl. destruct (rstrip t); rewrite ?Hc; eauto.
Qed.

Lemma lstrip_head s :
  lstrip s = [] \/ exists c t, lstrip s = c :: t /\ isspace c = false.
Proof.
  induction s as [|c t IH]; simpl; [now left|].
  destruct (isspace c) eqn:Hc; [exact IH|]. right. eauto.
Qed.

Lemma strip_idem s : strip (strip s) = strip s.
Proof.
  unfold strip. destruct (lstrip_head s) as [->|(c & t & -> & Hc)].
  - reflexivity.
  - destruct (rstrip_head c t Hc) as [t' Ht]. rewrite Ht. simpl lstrip.
    rewrite Hc, <- Ht. apply rstrip_idem.
Qed.

Lemma or_else_stripped a b :
  strip a = a -> strip b = b -> strip (or_else a b) = or_else a b.
Proof. unfold or_else. now destruct (truthy a). Qed.

Lemma clean_body_stripped body : strip (clean_body body) = clean_body body.
Proof. unfold clean_body. apply or_else_stripped; apply strip_idem. Qed.

Lemma clean_body_nil body : clean_body body = [] -> strip body = [].
Proof.
  unfold clean_body, or_else.
  destruct (strip (join nl _)); simpl; [auto | discriminate].
Qed.

End StripFacts.

(** The clean text never starts or ends with white space, and it is empty
    only when the selected body is blank: a body with any visible
    character never yields empty text. *)
Theorem strip_quotes_text_is_stripped (L : PyLib) (message : Message) :
  exists text,
    strip_quotes message = Ok text /\
    strip text = text /\
    (text = [] ->
     strip (select_body
              (gathered is_plain (rev (forest_leaves (payload_parts message))))
              (gathered is_html (rev (forest_leaves (payload_parts message))))
              (snippet message)) = []).
Proof.
  rewrite strip_quotes_value. eexists. split; [reflexivity|].
  split; [apply clean_body_stripped | apply clean_body_nil].
Qed.

(** Plain text wins: when some [text/plain] leaf decodes to text, the
    result is cleaned from the plain text alone, whatever the HTML leaves
    and the snippet hold; HTML is used when there is no plain text, and
    the snippet when there is neither, in particular for a message
    without parts. *)
Theorem strip_quotes_body_selection (L : PyLib) (message : Message) :
  let plain := gathered is_plain (rev (forest_leaves (payload_parts message))) in
  let markup := gathered is_html (rev (forest_leaves (payload_parts message))) in
  (plain <> [] -> strip_quotes message = Ok (clean_body plain)) /\
  (plain = [] -> markup <> [] ->
   strip_quotes message = Ok (clean_body (html_text markup))) /\
  (plain = [] -> markup = [] ->
   strip_quotes message = Ok (clean_body (snippet message))) /\
  (payload_parts message = [] ->
   strip_quotes message = Ok (clean_body (snippet message))).
Proof.
  cbv zeta. rewrite strip_quotes_value. unfold select_body, or_else.
  split; [|split; [|split]].
  - intros H. destruct (gathered is_plain _); [congruence|].
    simpl. now rewrite andb_false_r.
  - intros -> H. destruct (gathered is_html _); [congruence | reflexivity].
  - intros -> ->. reflexivity.
  - intros ->. reflexivity.
Qed.

Lemma strip_quotes_body_selection_witness :
  gathered (L := cpython) is_plain
    (rev (forest_leaves (payload_parts (Examples.plain_message [] Examples.b64_hello))))
    <> [] /\
  strip_quotes (L := cpython) (Examples.plain_message [] Examples.b64_hello)
  = Ok (clean_body
          (gathered (L := cpython) is_plain
             (rev (forest_leaves
                     (payload_parts (Examples.plain_message [] Examples.b64_hello)))))).
Proof.
  assert (H : gathered (L := cpython) is_plain
                (rev (forest_leaves
                        (payload_parts (Examples.plain_message [] Examples.b64_hello))))
              <> []) by (vm_compute; discriminate).
  split; [exact H|].
  exact (proj1 (strip_quotes_body_selection cpython
                  (Examples.plain_message [] Examples.b64_hello)) H).
Defined.

Section ComposerMore.
Context {L : PyLib}.

Lemma reply_message_value reply_text original from_addr :
  reply_message reply_text original from_addr =
  let hs := payload_headers original in
  let to := header_value (u "from") hs in
  let subj := strip (default [] (header_value (u "subject") hs)) in
  let mid := header_value (u "message-id") hs in
  if negb (truthy_opt to) then Raise InvalidOriginal
  else
    let! msg := MIMEText_utf8 reply_text in
    let msg := set_header (u "To") (default [] to) msg in
    let msg := set_header (u "From") from_addr msg in
    let msg :=
      set_header (u "Subject")
        (if negb (startswith (lower subj) (u "re:"))
         then u "Re: " ++ or_else subj (u "your email") else subj) msg in
    Ok (if truthy_opt mid
        then set_header (u "References") (default [] mid)
               (set_header (u "In-Reply-To") (default [] mid) msg)
        else msg).
Proof. unfold reply_message. now rewrite !header_dict_lookup. Qed.

Lemma mt_text_set_header a b m : mt_text (set_header a b m) = mt_text m.
Proof. reflexivity. Qed.

(** The constructor sets none of the headers that the sources assign. *)
Lemma MIMEText_utf8_headers text msg name :
  MIMEText_utf8 text = Ok msg ->
  name <> u "Content-Type" -> name <> u "MIME-Version" ->
  name <> u "Content-Transfer-Encoding" ->
  msg_header name msg = None.
Proof.
  intros H H1 H2 H3. apply MIMEText_utf8_Ok in H as (_ & _ & Hh).
  unfold msg_header. rewrite Hh. cbn [List.find fst].
  assert (E1 : str_eqb (u "Content-Type") name = false)
    by (apply str_eqb_neq; congruence).
  assert (E2 : str_eqb (u "MIME-Version") name = false)
    by (apply str_eqb_neq; congruence).
  assert (E3 : str_eqb (u "Content-Transfer-Encoding") name = false)
    by (apply str_eqb_neq; congruence).
  now rewrite E1, E2, E3.
Qed.

End ComposerMore.

(** A composed reply is addressed to the sender of the original and comes
    from the account's address; it carries the original's message id as
    [In-Reply-To] and [References] when the original has a non-empty one,
    and carries neither header otherwise. *)
Theorem build_mime_addressing_and_threading (L : PyLib) (reply_text : str)
    (original : Message) (from_addr : str) (msg : MIMEText) :
  reply_message reply_text original from_addr = Ok msg ->
  let mid := header_value (u "message-id") (payload_headers original) in
  mt_text msg = reply_text /\
  msg_header (u "To") msg = header_value (u "from") (payload_headers original) /\
  msg_header (u "From") msg = Some from_addr /\
  msg_header (u "In-Reply-To") msg = (if truthy_opt mid then mid else None) /\
  msg_header (u "References") msg = (if truthy_opt mid then mid else None).
Proof.
  rewrite reply_message_value. cbv zeta.
  destruct (header_value (u "from") (payload_headers original)) as [to|];
    [|discriminate].
  destruct (truthy_opt (Some to)); [|discriminate]. cbn [negb].
  destruct (MIMEText_utf8 reply_text) as [m0|e] eqn:Hm0; [|discriminate].
  cbn [Exc.bind]. intros [= <-].
  pose proof (MIMEText_utf8_headers _ _ (u "To") Hm0) as HTo.
  pose proof (MIMEText_utf8_headers _ _ (u "From") Hm0) as HFrom.
  pose proof (MIMEText_utf8_headers _ _ (u "In-Reply-To") Hm0) as HIn.
  pose proof (MIMEText_utf8_headers _ _ (u "References") Hm0) as HRef.
  apply MIMEText_utf8_Ok in Hm0 as (_ & Htext & _).
  destruct (header_value (u "message-id") (payload_headers original)) as [mid|];
    cbn [truthy_opt]; [destruct (truthy mid)|];
    rewrite ?mt_text_set_header, !msg_header_set_header,
      HTo, HFrom, HIn, HRef by discriminate;
    repeat split; auto.
Qed.

Lemma build_mime_addressing_and_threading_witness :
  reply_message (L := cpython) (u "Hi") Scenarios.threaded (u "jack@example.org")
  = Ok {| mt_text := u "Hi";
          mt_headers := [(u "Content-Type",
                          u "text/plain; charset=" ++ [QUOTE] ++ u "utf-8" ++ [QUOTE]);
                         (u "MIME-Version", u "1.0");
                         (u "Content-Transfer-Encoding", u "base64");
                         (u "To", u "alice@example.org");
                         (u "From", u "jack@example.org");
                         (u "Subject", u "Re: hello");
                         (u "In-Reply-To", u "<1@example.org>");
                         (u "References", u "<1@example.org>")] |} /\
  msg_header (u "References")
    {| mt_text := u "Hi";
       mt_headers := [(u "Content-Type",
                       u "text/plain; charset=" ++ [QUOTE] ++ u "utf-8" ++ [QUOTE]);
                      (u "MIME-Version", u "1.0");
                      (u "Content-Transfer-Encoding", u "base64");
                      (u "To", u "alice@example.org");
                      (u "From", u "jack@example.org");
                      (u "Subject", u "Re: hello");
                      (u "In-Reply-To", u "<1@example.org>");
                      (u "References", u "<1@example.org>")] |}
  = Some (u "<1@example.org>").
Proof.
  split; [reflexivity|].
  exact (proj2 (proj2 (proj2 (proj2
    (build_mime_addressing_and_threading cpython (u "Hi") Scenarios.threaded
       (u "jack@example.org") _ eq_refl))))).
Defined.

(** A reply is composed exactly when the original has a [From] header
    with a non-empty value and the reply text holds no surrogate code
    point.  An empty [From] value is refused like a missing header, with
    the error for an original that cannot be answered; a surrogate in the
    reply text makes the constructor of the message raise
    [UnicodeEncodeError].  Nothing else makes the composition fail before
    the message is serialised. *)
Theorem reply_message_fails_iff (L : PyLib) (reply_text : str)
    (original : Message) (from_addr : str) :
  let sender := header_value (u "from") (payload_headers original) in
  let addressed := exists to, sender = Some to /\ to <> [] in
  (reply_message reply_text original from_addr = Raise InvalidOriginal
   <-> sender = None \/ sender = Some []) /\
  (reply_message reply_text original from_addr = Raise UnicodeEncodeError
   <-> addressed /\ existsb is_surrogate reply_text = true) /\
  ((exists msg, reply_message reply_text original from_addr = Ok msg)
   <-> addressed /\ existsb is_surrogate reply_text = false) /\
  (sender = None \/ sender = Some [] ->
   build_mime reply_text original from_addr = Raise InvalidOriginal).
Proof.
  cbv zeta. unfold build_mime. rewrite reply_message_value. cbv zeta.
  unfold MIMEText_utf8.
  destruct (header_value (u "from") (payload_headers original)) as [[|c to]|];
    cbn [truthy_opt truthy negb].
  - split; [|split; [|split]].
    + split; auto.
    + split; [discriminate|]. intros [(to & Hto & Hne) _]. congruence.
    + split; [intros [msg H]; discriminate|].
      intros [(to & Hto & Hne) _]. congruence.
    + auto.
  - assert (Haddr : exists to0, Some (c :: to) = Some to0 /\ to0 <> [])
      by (exists (c :: to); split; [reflexivity | discriminate]).
    destruct (existsb is_surrogate reply_text); cbn [Exc.bind].
    + split; [|split; [|split]].
      * split; [discriminate | intros [H|H]; discriminate].
      * split; auto.
      * split; [intros [msg H]; discriminate | intros [_ H]; discriminate].
      * intros [H|H]; discriminate.
    + split; [|split; [|split]].
      * split; [discriminate | intros [H|H]; discriminate].
      * split; [discriminate | intros [_ H]; discriminate].
      * split; [auto | eauto].
      * intros [H|H]; discriminate.
  - split; [|split; [|split]].
    + split; auto.
    + split; [discriminate|]. intros [(to & Hto & _) _]. discriminate.
    + split; [intros [msg H]; discriminate|].
      intros [(to & Hto & _) _]. discriminate.
    + auto.
Qed.

Lemma reply_message_fails_iff_witness :
  (header_value (L := cpython) (u "from") (payload_headers Scenarios.with_empty_from)
     = Some [] /\
   build_mime (L := cpython) (u "Hi") Scenarios.with_empty_from (u "jack@example.org")
     = Raise InvalidOriginal) /\
  ((exists to, header_value (L := cpython) (u "from")
                 (payload_headers Scenarios.threaded) = Some to /\ to <> []) /\
   existsb is_surrogate [0xD800%N] = true /\
   reply_message (L := cpython) [0xD800%N] Scenarios.threaded (u "jack@example.org")
     = Raise UnicodeEncodeError).
Proof.
  split.
  - split; [reflexivity|].
    exact (proj2 (proj2 (proj2 (reply_message_fails_iff cpython (u "Hi")
             Scenarios.with_empty_from (u "jack@example.org"))))
             (or_intror eq_refl)).
  - assert (Ha : exists to, header_value (L := cpython) (u "from")
                   (payload_headers Scenarios.threaded) = Some to /\ to <> []).
    { eexists. split; [reflexivity | discriminate]. }
    split; [exact Ha|]. split; [reflexivity|].
    exact (proj2 (proj1 (proj2 (reply_message_fails_iff cpython [0xD800%N]
             Scenarios.threaded (u "jack@example.org"))))
             (conj Ha eq_refl)).
Defined.

(** Editing a draft rebuilds its message from the new text: after the
    three headers that the constructor sets it has [To], taken from the
    draft's [To] header, else from its [From] header, else empty, and
    [Subject], taken from the draft's subject, else [Re:], and no other
    header.  The sender and the threading headers of the draft are not
    carried over.  A surrogate in the new text makes the constructor raise
    [UnicodeEncodeError]. *)
Theorem update_draft_rebuilds_headers (L : PyLib) (new_text : str)
    (headers : list Header) :
  (existsb is_surrogate new_text = true ->
   Gmail.edited_message new_text headers = Raise UnicodeEncodeError) /\
  (existsb is_surrogate new_text = false ->
   exists msg,
     Gmail.edited_message new_text headers = Ok msg /\
     mt_text msg = new_text /\
     map fst (mt_headers msg)
     = [u "Content-Type"; u "MIME-Version"; u "Content-Transfer-Encoding";
        u "To"; u "Subject"] /\
     msg_header (u "To") msg
     = Some match header_value (u "to") headers with
            | Some to => to
            | None => default [] (header_value (u "from") headers)
            end /\
     msg_header (u "Subject") msg
     = Some (default (u "Re:") (header_value (u "subject") headers)) /\
     msg_header (u "From") msg = None /\
     msg_header (u "In-Reply-To") msg = None /\
     msg_header (u "References") msg = None).
Proof.
  unfold Gmail.edited_message, MIMEText_utf8. rewrite !header_dict_lookup.
  destruct (existsb is_surrogate new_text); cbn [Exc.bind].
  - split; [reflexivity | discriminate].
  - split; [discriminate|]. intros _. eexists. split; [reflexivity|].
    repeat split.
Qed.

Lemma update_draft_rebuilds_headers_witness :
  existsb is_surrogate (u "Hi.") = false /\
  header_value (L := cpython) (u "references") Scenarios.stored_headers
    = Some (u "<1@example.org>") /\
  exists msg,
    Gmail.edited_message (L := cpython) (u "Hi.") Scenarios.stored_headers = Ok msg /\
    msg_header (u "References") msg = None.
Proof.
  split; [reflexivity|]. split; [reflexivity|].
  destruct (proj2 (update_draft_rebuilds_headers cpython (u "Hi.")
                     Scenarios.stored_headers) eq_refl)
    as (msg & Hmsg & _ & _ & _ & _ & _ & _ & Href).
  exists msg. split; [exact Hmsg | exact Href].
Defined.

(** ** More on reply generation *)

Section ReplyFacts.
Context {C : Console} {W : Type} {AI : OpenAI W}.

Lemma call_value {A} (m : eff W A) (s : Sys W) :
  call m s
  = (fst (m (world s)),
     {| world := snd (m (world s)); database := database s; stdout := stdout s |}).
Proof. unfold call. now destruct (m (world s)). Qed.



Lemma print_fails l (s : Sys W) :
  can_write (line_text l) = false ->
  print l s = (Raise UnicodeEncodeError,
               {| world := world s; database := database s;
                  stdout := stdout s ++ cut l |}).
Proof. unfold print. now intros ->. Qed.

Lemma sys_eta (s : Sys W) :
  {| world := world s; database := database s; stdout := stdout s |} = s.
Proof. now destruct s. Qed.

(** The body of the [try]: one request to the generation service, nothing
    printed and nothing in the table. *)
Lemma request_reply_value self text (s : Sys W) :
  request_reply self text s
  = (let! response :=
       fst (chat_completion_create (model self) (system_prompt self) text (world s)) in
     let! choice := first (choices response) in
     strip_attr (content (message choice)),
     {| world := snd (chat_completion_create (model self) (system_prompt self) text
                        (world s));
        database := database s; stdout := stdout s |}).
Proof.
  unfold request_reply, ebind. rewrite call_value.
  destruct (fst (chat_completion_create _ _ _ (world s))) as [response|e];
    [|reflexivity].
  cbn [Exc.bind]. unfold lift.
  now destruct (first (choices response)) as [choice|e].
Qed.

Lemma request_reply_stripped self text (s s' : Sys W) reply :
  request_reply self text s = (Ok reply, s') -> strip reply = reply.
Proof.
  rewrite request_reply_value. intros [= H _].
  destruct (fst (chat_completion_create _ _ _ (world s))) as [response|e];
    [|discriminate].
  cbn [Exc.bind] in H. destruct (first (choices response)) as [choice|e];
    [|discriminate].
  cbn [Exc.bind] in H. destruct (content (message choice)) as [t|];
    [|discriminate].
  injection H as <-. apply strip_idem.
Qed.

Lemma draft_reply_value self text (s : Sys W) :
  draft_reply self text s
  = match request_reply self text s with
    | (Ok reply, s1) => (Ok reply, s1)
    | (Raise e, s1) =>
        if can_write (ARROW :: exn_text e)
        then (Ok CANNED_REPLY,
              {| world := world s1; database := database s1;
                 stdout := stdout s1 ++ [OpenAIError e] |})
        else (Raise UnicodeEncodeError, s1)
    end.
Proof.
  unfold draft_reply, etry.
  destruct (request_reply self text s) as [[reply|e] s1]; [reflexivity|].
  unfold ebind, print. cbn [line_text cut].
  destruct (can_write (ARROW :: exn_text e)); [reflexivity|].
  now rewrite app_nil_r, sys_eta.
Qed.

(** What a reply that [draft_reply] returns is, and what the call did. *)
Lemma draft_reply_Ok_inv self text (s s' : Sys W) reply :
  draft_reply self text s = (Ok reply, s') ->
  strip reply = reply /\
  world s'
  = snd (chat_completion_create (model self) (system_prompt self) text (world s)) /\
  database s' = database s /\
  (forall e, fst (chat_completion_create (model self) (system_prompt self) text
                    (world s)) = Raise e -> reply = CANNED_REPLY).
Proof.
  rewrite draft_reply_value.
  destruct (request_reply self text s) as [[r|e] s1] eqn:Hreq.
  - intros [= <- <-]. split; [exact (request_reply_stripped _ _ _ _ _ Hreq)|].
    rewrite request_reply_value in Hreq. injection Hreq as Hr <-.
    repeat split. intros e He. rewrite He in Hr. discriminate.
  - destruct (can_write (ARROW :: exn_text e)); [|discriminate].
    intros [= <- <-]. rewrite request_reply_value in Hreq. injection Hreq as _ <-.
    repeat split.
Qed.



End ReplyFacts.



(** ** More on the poll cycle *)

Section GrowthFacts.
Context {C : Console} {W : Type}.
Import Growth.










End GrowthFacts.

Section CycleGrowth.
Context {L : PyLib} {C : Console} {W : Type} {G : GmailAPI W} {AI : OpenAI W}.
Import Growth.






End CycleGrowth.

Section CycleSteps.
Context {L : PyLib} {C : Console} {W : Type} {G : GmailAPI W} {AI : OpenAI W}.





Lemma etry_print_database {A} (m : eff (Sys W) A) (f : exn -> line) (a : A)
    (s : Sys W) :
  database (snd (etry m (fun e => do! _ := print (f e) in eret a) s))
  = database (snd (m s)).
Proof.
  unfold etry. destruct (m s) as [[x|e] s1]; [reflexivity|].
  unfold ebind. pose proof (print_database (f e) s1) as H.
  now destruct (print (f e) s1) as [[[]|e'] s2].
Qed.

End CycleSteps.






(** A message processed to the end leaves exactly one new record, under
    the next id: pending, with the id of the message, the id of the draft
    that the provider returned and the generated reply, which has no
    surrounding white space; the last line printed names both ids.  When
    the generation request raised, the stored reply is the canned one. *)
Theorem process_message_record (L : PyLib) (C : Console) (W : Type)
    (G : GmailAPI W) (AI : OpenAI W) (self : SchedulerService)
    (msg_id : option str) (s s' : Sys W) :
  process_message self msg_id s = (Ok tt, s') ->
  exists m_id d_id reply t1 t2 printed,
    msg_id = Some m_id /\
    database s'
    = {| rows := rows (database s) ++
           [{| row_id := autoinc (database s) + 1; message_id := m_id;
               draft_id := d_id; reply_text := reply; status := PENDING;
               created_at := t1; updated_at := t2 |}];
         autoinc := autoinc (database s) + 1 |} /\
    strip reply = reply /\
    stdout s' = printed ++ [ProcessedLine msg_id (Some d_id)] /\
    (forall m w1 c e,
       messages_get msg_id (world s) = (Ok m, w1) ->
       strip_quotes m = Ok c ->
       fst (chat_completion_create (model (llm self)) (system_prompt (llm self))
              c w1) = Raise e ->
       reply = CANNED_REPLY).
Proof.
  unfold process_message. intros H.
  apply ebind_Ok_inv in H as (m & s1 & Hget & H).
  apply ebind_Ok_inv in H as (c & s2 & Hclean & H).
  apply ebind_Ok_inv in H as (reply & s3 & Hreply & H).
  apply ebind_Ok_inv in H as (raw & s4 & Hraw & H).
  apply ebind_Ok_inv in H as (d & s5 & Hdraft & H).
  apply ebind_Ok_inv in H as (rid & s6 & Hsave & H).
  apply ebind_Ok_inv in H as ([] & s7 & Hmark & Hprint).
  unfold get_message in Hget. rewrite call_value in Hget.
  injection Hget as Hm Hs1.
  unfold lift in Hclean, Hraw. injection Hclean as Hc <-. injection Hraw as _ <-.
  destruct (draft_reply_Ok_inv _ _ _ _ _ Hreply) as (Hstrip & _ & Hdb3 & Hcan).
  assert (Hdb5 : database s5 = database s3).
  { unfold create_draft in Hdraft. destruct (negb (truthy raw)); [discriminate|].
    rewrite call_value in Hdraft. now injection Hdraft as _ <-. }
  unfold db_save_draft in Hsave.
  apply ebind_Ok_inv in Hsave as (t1 & a1 & Ht1 & Hsave).
  apply ebind_Ok_inv in Hsave as (t2 & a2 & Ht2 & Hsave).
  rewrite datetime_now_value in Ht1. injection Ht1 as _ <-.
  rewrite datetime_now_value in Ht2. injection Ht2 as _ <-.
  unfold save_draft in Hsave. cbn [world database stdout] in Hsave.
  destruct msg_id as [m_id|]; [|discriminate].
  destruct (dr_id d) as [d_id|] eqn:Hd; [|discriminate].
  injection Hsave as _ <-.
  unfold mark_read in Hmark. rewrite call_value in Hmark.
  injection Hmark as _ <-.
  apply print_Ok_inv in Hprint as [_ ->]. cbn [world database stdout].
  exists m_id, d_id, reply, t1, t2, (stdout s5).
  rewrite Hdb5, Hdb3, <- Hs1. cbn [database].
  repeat split; auto.
  intros m0 w1 c0 e Hget0 Hc0 Hfail.
  rewrite Hget0 in Hm, Hs1. simpl in Hm, Hs1. injection Hm as <-.
  rewrite Hc in Hc0. injection Hc0 as <-.
  apply (Hcan e). rewrite <- Hs1. exact Hfail.
Qed.

Lemma process_message_record_witness :
  Examples.run_one (Some (u "m1")) (Examples.start Examples.three_unread)
  = (Ok tt, snd (Examples.run_one (Some (u "m1"))
                   (Examples.start Examples.three_unread))) /\
  exists m_id d_id reply t1 t2 printed,
    Some (u "m1") = Some m_id /\
    database (snd (Examples.run_one (Some (u "m1"))
                     (Examples.start Examples.three_unread)))
    = {| rows := [] ++
           [{| row_id := 0 + 1; message_id := m_id;
               draft_id := d_id; reply_text := reply; status := PENDING;
               created_at := t1; updated_at := t2 |}];
         autoinc := 0 + 1 |} /\
    strip reply = reply /\
    stdout (snd (Examples.run_one (Some (u "m1"))
                   (Examples.start Examples.three_unread)))
    = printed ++ [ProcessedLine (Some (u "m1")) (Some d_id)] /\
    (forall m w1 c e,
       messages_get (GmailAPI := Examples.mailbox) (Some (u "m1"))
         Examples.three_unread = (Ok m, w1) ->
       strip_quotes (L := cpython) m = Ok c ->
       fst (chat_completion_create (OpenAI := Examples.generator)
              (model (llm Examples.service)) (system_prompt (llm Examples.service))
              c w1) = Raise e ->
       reply = CANNED_REPLY).
Proof.
  assert (H : Examples.run_one (Some (u "m1")) (Examples.start Examples.three_unread)
              = (Ok tt, snd (Examples.run_one (Some (u "m1"))
                               (Examples.start Examples.three_unread))))
    by (vm_compute; reflexivity).
  split; [exact H|].
  exact (process_message_record cpython Examples.utf8 _ Examples.mailbox
           Examples.generator Examples.service (Some (u "m1"))
           (Examples.start Examples.three_unread) _ H).
Defined.

Section WritableCycle.
Context {L : PyLib} {C : Console} {W : Type} {G : GmailAPI W} {AI : OpenAI W}.
Hypothesis Hall : forall c, encodes c = true.







End WritableCycle.

Section SaveStep.
Context {L : PyLib} {C : Console} {W : Type} {G : GmailAPI W} {AI : OpenAI W}.


End SaveStep.



(** ** The rows of the drafts page *)

Section PageFacts.

Lemma replace_char_Forall (P : N -> Prop) old new s :
  Forall P new ->
  (forall c, In c s -> c <> old -> P c) ->
  Forall P (Page.replace_char old new s).
Proof.
  intros Hnew Hs. unfold Page.replace_char. apply List.Forall_forall.
  intros x Hx. apply in_flat_map in Hx as (c & Hc & Hx).
  destruct (c =? old)%N eqn:He.
  - rewrite List.Forall_forall in Hnew. auto.
  - destruct Hx as [<-|[]]. apply Hs; auto. now apply N.eqb_neq.
Qed.

Lemma html_escape_no_markup s :
  Forall (fun c => Page.is_markup c = false) (Page.html_escape s).
Proof.
  unfold Page.html_escape.
  set (s1 := Page.replace_char 0x26%N (u "&amp;") s).
  assert (H2 : Forall (fun c => c <> 0x3C%N)
                 (Page.replace_char 0x3C%N (u "&lt;") s1)).
  { apply replace_char_Forall; [repeat constructor; discriminate | auto]. }
  set (s2 := Page.replace_char 0x3C%N (u "&lt;") s1) in *.
  assert (H3 : Forall (fun c => c <> 0x3C%N /\ c <> 0x3E%N)
                 (Page.replace_char 0x3E%N (u "&gt;") s2)).
  { apply replace_char_Forall; [repeat constructor; discriminate|].
    rewrite List.Forall_forall in H2. auto. }
  set (s3 := Page.replace_char 0x3E%N (u "&gt;") s2) in *.
  assert (H4 : Forall (fun c => c <> 0x3C%N /\ c <> 0x3E%N /\ c <> 0x22%N)
                 (Page.replace_char 0x22%N (u "&quot;") s3)).
  { apply replace_char_Forall; [repeat constructor; discriminate|].
    rewrite List.Forall_forall in H3. intros c Hc Hne.
    destruct (H3 c Hc). auto. }
  set (s4 := Page.replace_char 0x22%N (u "&quot;") s3) in *.
  apply replace_char_Forall.
  - repeat constructor.
  - rewrite List.Forall_forall in H4. intros c Hc Hne.
    destruct (H4 c Hc) as (Ha & Hb & Hq). unfold Page.is_markup.
    apply N.eqb_neq in Ha, Hb, Hq, Hne. now rewrite Ha, Hb, Hq, Hne.
Qed.

End PageFacts.

(** Whatever the message and the reply contain, no text cell of a row of
    the drafts table (subject, sender, body preview, reply preview, sent
    preview) contains an angle bracket or a quote.  A row whose status is
    one of the three final ones shows no action button. *)
Theorem mk_row_cells_are_escaped (d : Page.Shown) :
  Forall (fun c => Page.is_markup c = false) (Page.subj d) /\
  Forall (fun c => Page.is_markup c = false) (Page.sender_cell d) /\
  Forall (fun c => Page.is_markup c = false) (Page.body_pv d) /\
  Forall (fun c => Page.is_markup c = false) (Page.reply_pv d) /\
  Forall (fun c => Page.is_markup c = false) (Page.sent_pv d) /\
  (is_terminal (status (Page.draft d)) = true -> Page.has_actions d = false).
Proof.
  repeat split; try apply html_escape_no_markup.
  - unfold Page.sent_pv. destruct (startswith _ _); [|constructor].
    apply html_escape_no_markup.
  - unfold is_terminal, Page.has_actions. intros H.
    apply str_eqb_neq. intros Hp. rewrite Hp in H. discriminate.
Qed.

Lemma mk_row_cells_are_escaped_witness :
  is_terminal (status (Page.draft
    {| Page.draft := Examples.rejected_row; Page.subject := u "<b>hello</b>";
       Page.sender := u "Alice <alice@example.org>"; Page.body := u "it's" |})) = true /\
  Page.has_actions
    {| Page.draft := Examples.rejected_row; Page.subject := u "<b>hello</b>";
       Page.sender := u "Alice <alice@example.org>"; Page.body := u "it's" |} = false.
Proof.
  split; [reflexivity|].
  exact (proj2 (proj2 (proj2 (proj2 (proj2 (mk_row_cells_are_escaped
    {| Page.draft := Examples.rejected_row; Page.subject := u "<b>hello</b>";
       Page.sender := u "Alice <alice@example.org>"; Page.body := u "it's" |})))))
    eq_refl).
Defined.
